(** * VideoClassifier front end: the timeline, the seek path and the
      analysis handlers

    A shallow embedding of [frontend/src/components/Timeline.jsx] and of the
    handlers of [frontend/src/App.jsx], with the two components [App]
    renders beside the timeline, [SegmentList] and [VideoPlayer], and the
    page they form together.

    Numbers.  The values the components receive (segment bounds, durations,
    media time, pointer and layout coordinates) are finite JavaScript
    numbers; they are modelled by the rationals [Q] with exact arithmetic,
    so rounding is idealised.  The only arithmetic of the source that can
    leave the finite numbers is the unguarded division of [handleClick];
    its result has type [number], which adds one value for NaN and the two
    infinities. *)

From Stdlib Require Import QArith Qminmax Lqa.
From Stdlib Require Import ZArith Bool List String Lia.
Import ListNotations.

Open Scope Q_scope.

(** ** JavaScript numbers that may be non-finite *)

Module JsNum.

Inductive number : Type :=
| Finite (q : Q)
| NonFinite.

(** [a / b] on finite operands: a zero divisor gives NaN or an infinity. *)
Definition div (a b : Q) : number :=
  if Qeq_bool b 0 then NonFinite else Finite (a / b).

(** [n * d] with [d] finite: NaN and the infinities stay non-finite. *)
Definition mul (n : number) (d : Q) : number :=
  match n with
  | Finite p => Finite (p * d)
  | NonFinite => NonFinite
  end.

(** [a > b] and [a <= b] on finite numbers. *)
Definition gt (a b : Q) : bool := negb (Qle_bool a b).
Definition le (a b : Q) : bool := Qle_bool a b.

(** [!a] on a finite number: only zero is falsy. *)
Definition falsy (a : Q) : bool := Qeq_bool a 0.

End JsNum.

(** ** Timeline.jsx *)

Module Timeline.
Import JsNum.

(** What the [mode] field of a segment can hold once the response has
    been parsed: a string, or any other value (arrays and objects are
    not told apart, the code never looks inside them). *)
Inductive value : Type :=
| VUndefined
| VNull
| VBool (b : bool)
| VNumber (q : Q)
| VString (s : string)
| VObject.

(** A segment of the analysis result: [{ mode, start, end }]. *)
Record Segment : Type := mkSegment {
  mode : value;
  start : Q;
  end_ : Q
}.

(** [v === lit] for a string literal [lit]. *)
Definition strict_eq_string (v : value) (lit : string) : bool :=
  match v with
  | VString s => String.eqb s lit
  | _ => false
  end.

Definition colorForMode (m : value) : string :=
  if strict_eq_string m "DIALOGUE_SCENE" then "#4f46e5"
  else if strict_eq_string m "VISUAL_MONTAGE" then "#ef4444"
  else if strict_eq_string m "VOICEOVER_WITH_PICTURE" then "#10b981"
  else "#94a3b8".

(** The video element behind [videoRef.current], as far as the timeline
    reads it. *)
Record Video : Type := mkVideo {
  currentTime : Q
}.

(** A React ref: [current] is [null] until an element is attached. *)
Record Ref (A : Type) : Type := mkRef {
  current : option A
}.
Arguments mkRef {A} _.
Arguments current {A} _.

(** The measured box of the track, from [getBoundingClientRect()]. *)
Record Rect : Type := mkRect {
  rect_left : Q;
  rect_width : Q
}.

(** The props as the caller passes them: an omitted prop is [None]. *)
Record RawProps (E : Type) : Type := mkRawProps {
  raw_segments : option (list Segment);
  raw_duration : option Q;
  raw_videoRef : option (Ref Video);
  raw_onSeek : option (number -> list E)
}.
Arguments mkRawProps {E} _ _ _ _.
Arguments raw_segments {E} _.
Arguments raw_duration {E} _.
Arguments raw_videoRef {E} _.
Arguments raw_onSeek {E} _.

(** The props after destructuring, [segments = []] and [duration = 0]
    filled in.  [onSeek] is a callback whose effects have type [E]. *)
Record Props (E : Type) : Type := mkProps {
  segments : list Segment;
  duration : Q;
  videoRef : option (Ref Video);
  onSeek : option (number -> list E)
}.
Arguments mkProps {E} _ _ _ _.
Arguments segments {E} _.
Arguments duration {E} _.
Arguments videoRef {E} _.
Arguments onSeek {E} _.

Definition destructure {E} (r : RawProps E) : Props E :=
  {| segments := match raw_segments r with Some l => l | None => [] end;
     duration := match raw_duration r with Some d => d | None => 0 end;
     videoRef := raw_videoRef r;
     onSeek := raw_onSeek r |}.

(** *** The sampling tick *)

(** [videoRef && videoRef.current]: the video element, when the prop is
    given and an element is attached to it. *)
Definition attached (vref : option (Ref Video)) : option Video :=
  match vref with
  | Some r => current r
  | None => None
  end.

(** The argument of [setPlayhead] in one run of [tick], when it is
    called at all. *)
Definition tick_publish (vref : option (Ref Video)) (duration : Q)
  : option Q :=
  match attached vref with
  | Some v =>
      if gt duration 0 then Some (currentTime v / duration) else None
  | None => None
  end.

(** The [playhead] state after one run of [tick].  The last line of the
    source's [tick], which requests the next frame, is the recursion of
    [run_ticks] below. *)
Definition tick {E} (p : Props E) (playhead : Q) : Q :=
  match tick_publish (videoRef p) (duration p) with
  | Some v => v
  | None => playhead
  end.

(** [useState(0)]. *)
Definition initial_playhead : Q := 0.

(** The state after the ticks of a run: one snapshot of the props per
    animation frame. *)
Fixpoint run_ticks {E} (frames : list (Props E)) (playhead : Q) : Q :=
  match frames with
  | [] => playhead
  | p :: rest => run_ticks rest (tick p playhead)
  end.

(** *** The coordinate mapping *)

Definition pct (duration t : Q) : Q :=
  if falsy duration || le duration 0 then 0
  else Qmax 0 (Qmin 100 ((t / duration) * 100)).

(** *** The click handler *)

Definition handleClick {E} (p : Props E) (containerRef : Ref Rect)
    (clientX : Q) : list E :=
  match current containerRef, onSeek p with
  | Some rect, Some seek =>
      let x := clientX - rect_left rect in
      let frac := div x (rect_width rect) in
      seek (mul frac (duration p))
  | _, _ => []
  end.

(** *** The rendered track *)

(** The inline style of one segment; [left] and [width] are the numbers
    in front of the percent sign.  The [title] attribute, a formatted
    string that no layout depends on, is left out. *)
Record SegmentBox : Type := mkBox {
  key : nat;
  left : Q;
  width : Q;
  background : string
}.

Definition segment_box (duration : Q) (i : nat) (s : Segment) : SegmentBox :=
  {| key := i;
     left := pct duration (start s);
     width := Qmax (2 # 10) (pct duration (end_ s) - pct duration (start s));
     background := colorForMode (mode s) |}.

(** [segments.map((s, i) => ...)]. *)
Fixpoint map_indexed {A B} (f : nat -> A -> B) (i : nat) (l : list A)
  : list B :=
  match l with
  | [] => []
  | a :: rest => f i a :: map_indexed f (S i) rest
  end.

Record Track : Type := mkTrack {
  boxes : list SegmentBox;
  playhead_left : Q;
  legend : list (string * string)
}.

Definition render {E} (p : Props E) (playhead : Q) : Track :=
  {| boxes := map_indexed (segment_box (duration p)) 0 (segments p);
     playhead_left := playhead * 100;
     legend :=
       [ (colorForMode (VString "DIALOGUE_SCENE"), "DIALOGUE_SCENE");
         (colorForMode (VString "VISUAL_MONTAGE"), "VISUAL_MONTAGE");
         (colorForMode (VString "VOICEOVER_WITH_PICTURE"),
          "VOICEOVER_WITH_PICTURE") ]%string |}.

(** A callback for [onSeek] that records the time it is called with. *)
Definition record_seek (t : number) : list number := [t].

End Timeline.

(** ** App.jsx *)

Module App.
Import JsNum.

Definition File : Type := string.

(** What [setError] is given. *)
Inductive ErrorMsg : Type :=
| Message (s : string)
| ServerError (status : Z) (txt : string)
| Thrown (e : string)
| UploadFailed (status : Z) (statusText : string).

(** The [useState] cells of [App]. *)
Record State : Type := mkState {
  localFile : option File;
  localURL : option string;
  serverPath : string;
  segments : list Timeline.Segment;
  duration : Q;
  loading : bool;
  error : option ErrorMsg;
  uploadProgress : option Z
}.

Definition initial : State :=
  {| localFile := None; localURL := None;
     serverPath := "videos/Mihir_clip.MOV";
     segments := []; duration := 0; loading := false;
     error := None; uploadProgress := None |}.

(** *** Handlers as state transformers *)

Definition Handler (A : Type) : Type := State -> A * State.

Definition ret {A} (a : A) : Handler A := fun s => (a, s).

Definition bind {A B} (c : Handler A) (k : A -> Handler B) : Handler B :=
  fun s => let (a, s') := c s in k a s'.

Definition exec {A} (c : Handler A) (s : State) : State := snd (c s).

Declare Scope handler_scope.
Delimit Scope handler_scope with handler.
Notation "c1 ;; c2" := (bind c1 (fun _ => c2))
  (at level 61, right associativity) : handler_scope.

Definition get {A} (f : State -> A) : Handler A := fun s => (f s, s).

Definition setLocalFile (v : option File) : Handler unit := fun s =>
  (tt, mkState v (localURL s) (serverPath s) (segments s) (duration s)
          (loading s) (error s) (uploadProgress s)).
Definition setLocalURL (v : option string) : Handler unit := fun s =>
  (tt, mkState (localFile s) v (serverPath s) (segments s) (duration s)
          (loading s) (error s) (uploadProgress s)).
Definition setServerPath (v : string) : Handler unit := fun s =>
  (tt, mkState (localFile s) (localURL s) v (segments s) (duration s)
          (loading s) (error s) (uploadProgress s)).
Definition setSegments (v : list Timeline.Segment) : Handler unit := fun s =>
  (tt, mkState (localFile s) (localURL s) (serverPath s) v (duration s)
          (loading s) (error s) (uploadProgress s)).
Definition setDuration (v : Q) : Handler unit := fun s =>
  (tt, mkState (localFile s) (localURL s) (serverPath s) (segments s) v
          (loading s) (error s) (uploadProgress s)).
Definition setLoading (v : bool) : Handler unit := fun s =>
  (tt, mkState (localFile s) (localURL s) (serverPath s) (segments s)
          (duration s) v (error s) (uploadProgress s)).
Definition setError (v : option ErrorMsg) : Handler unit := fun s =>
  (tt, mkState (localFile s) (localURL s) (serverPath s) (segments s)
          (duration s) (loading s) v (uploadProgress s)).
Definition setUploadProgress (v : option Z) : Handler unit := fun s =>
  (tt, mkState (localFile s) (localURL s) (serverPath s) (segments s)
          (duration s) (loading s) (error s) v).

(** *** The parsed response *)

(** The body of a response after [JSON.parse]: [null], on which a
    property access throws, or a value with the two fields the code
    reads; [None] is a field that is absent or [null]. *)
Inductive Payload : Type :=
| PNull
| PData (segs : option (list Timeline.Segment)) (dur : option Q).

(** [data.segments || []]: an array is truthy, also when empty. *)
Definition segments_or_empty (segs : option (list Timeline.Segment))
  : list Timeline.Segment :=
  match segs with Some l => l | None => [] end.

(** [data.duration || 0]: zero is falsy and gives the literal. *)
Definition duration_or_zero (dur : option Q) : Q :=
  match dur with
  | Some d => if falsy d then 0 else d
  | None => 0
  end.

(** The two [set] calls that store a parsed response; [None] when the
    property access throws, before any of the two calls. *)
Definition store_payload (data : Payload) : option (Handler unit) :=
  match data with
  | PNull => None
  | PData segs dur =>
      Some (setSegments (segments_or_empty segs) ;;
            setDuration (duration_or_zero dur))%handler
  end.

(** *** handleAnalyze *)

Inductive Request : Type :=
| PostAnalyze (video_path : string)
| PostUpload (video : File).

(** How the awaited part of [handleAnalyze] ends. *)
Inductive FetchOutcome : Type :=
| FetchRejected (e : string)
| NotOk (status : Z) (txt : string)
| NotOkUnreadable (status : Z) (e : string)
| BadJson (e : string)
| Json (data : Payload).

(** [handleAnalyze] up to the [await]: the request, if one is sent. *)
Definition handleAnalyze_begin : Handler (option Request) :=
  (setError None ;;
   setSegments [] ;;
   setDuration 0 ;;
   bind (get serverPath) (fun path =>
     if String.eqb path "" then
       setError (Some (Message
         "Please provide a server-side video path (e.g. videos/Mihir_clip.MOV)")) ;;
       ret None
     else
       setLoading true ;;
       ret (Some (PostAnalyze path))))%handler.

(** The rest of the [try], its [catch] and its [finally]. *)
Definition handleAnalyze_resume (o : FetchOutcome) : Handler unit :=
  (match o with
   | FetchRejected e => setError (Some (Thrown e))
   | NotOk status txt => setError (Some (ServerError status txt))
   | NotOkUnreadable _ e => setError (Some (Thrown e))
   | BadJson e => setError (Some (Thrown e))
   | Json data =>
       match store_payload data with
       | Some store => store
       | None => setError (Some (Thrown "TypeError"))
       end
   end ;;
   setLoading false)%handler.

(** *** handleUpload and the callbacks it installs *)

Definition handleUpload_begin : Handler (option Request) :=
  (setError None ;;
   setSegments [] ;;
   setDuration 0 ;;
   bind (get localFile) (fun file =>
     match file with
     | None =>
         setError (Some (Message "No local file selected to upload")) ;;
         ret None
     | Some f =>
         setLoading true ;;
         setUploadProgress (Some 0%Z) ;;
         ret (Some (PostUpload f))
     end))%handler.

(** [xhr.upload.onprogress]; [percent] is the rounded quotient. *)
Definition upload_onprogress (lengthComputable : bool) (percent : Z)
  : Handler unit :=
  if lengthComputable then setUploadProgress (Some percent) else ret tt.

(** [JSON.parse(xhr.responseText)]. *)
Inductive ParseResult : Type :=
| SyntaxError
| Parsed (data : Payload).

(** [xhr.onreadystatechange]. *)
Definition upload_onreadystatechange (readyState status : Z)
    (statusText : string) (body : ParseResult) : Handler unit :=
  if Z.eqb readyState 4 then
    (setLoading false ;;
     setUploadProgress None ;;
     if Z.leb 200 status && Z.ltb status 300 then
       match body with
       | Parsed data =>
           match store_payload data with
           | Some store => store
           | None =>
               setError (Some (Message "Failed to parse server response"))
           end
       | SyntaxError =>
           setError (Some (Message "Failed to parse server response"))
       end
     else setError (Some (UploadFailed status statusText)))%handler
  else ret tt.

(** [xhr.onerror]. *)
Definition upload_onerror : Handler unit :=
  (setLoading false ;;
   setUploadProgress None ;;
   setError (Some (Message "Network error during upload")))%handler.

(** *** The other handlers *)

(** [handleLocalFile], with the effect that publishes the object URL of
    the chosen file. *)
Definition handleLocalFile (f : option File) (url : string) : Handler unit :=
  match f with
  | Some file => (setLocalFile (Some file) ;; setLocalURL (Some url))%handler
  | None => ret tt
  end.

(** The statement [videoRef.current.currentTime = t] on an attached video
    element: a finite [t] is assigned; for NaN or an infinity the setter
    of the element throws a [TypeError] and the current time is left as it
    was. *)
Inductive Assignment : Type :=
| AssignCurrentTime (t : number)
| SetterTypeError.

Definition handleSeek (videoRef : Timeline.Ref Timeline.Video) (t : number)
  : list Assignment :=
  match Timeline.current videoRef with
  | Some _ =>
      match t with
      | Finite _ => [AssignCurrentTime t]
      | NonFinite => [SetterTypeError]
      end
  | None => []
  end.

(** The props [App] gives to [Timeline]. *)
Definition timeline_props (videoRef : Timeline.Ref Timeline.Video)
    (st : State) : Timeline.Props Assignment :=
  {| Timeline.segments := segments st;
     Timeline.duration := duration st;
     Timeline.videoRef := Some videoRef;
     Timeline.onSeek := Some (handleSeek videoRef) |}.

(** *** Events *)

(** What can happen while a request is in flight: both buttons are
    disabled by [loading], the inputs and the player are not. *)
Inductive UiEvent : Type :=
| LocalFileChosen (f : option File) (url : string)
| ServerPathEdited (path : string)
| UploadProgress (lengthComputable : bool) (percent : Z)
| LoadedMetadata (d : Q).

Definition ui_step (ev : UiEvent) : Handler unit :=
  match ev with
  | LocalFileChosen f url => handleLocalFile f url
  | ServerPathEdited path => setServerPath path
  | UploadProgress lc percent => upload_onprogress lc percent
  | LoadedMetadata d => setDuration d
  end.

Fixpoint ui_run (evs : list UiEvent) (s : State) : State :=
  match evs with
  | [] => s
  | ev :: rest => ui_run rest (exec (ui_step ev) s)
  end.

Definition is_metadata (ev : UiEvent) : bool :=
  match ev with LoadedMetadata _ => true | _ => false end.

(** The ways a request fails. *)
Definition analyze_failed (o : FetchOutcome) : bool :=
  match o with
  | FetchRejected _ | NotOk _ _ | NotOkUnreadable _ _ | BadJson _ => true
  | Json PNull => true
  | Json (PData _ _) => false
  end.

(** How an upload ends: the last [readystatechange], followed by the
    [error] event when the transfer itself failed. *)
Inductive XhrOutcome : Type :=
| XhrDone (status : Z) (statusText : string) (body : ParseResult)
| XhrNetworkError.

Definition handleUpload_resume (o : XhrOutcome) : Handler unit :=
  match o with
  | XhrDone status statusText body =>
      upload_onreadystatechange 4 status statusText body
  | XhrNetworkError =>
      (upload_onreadystatechange 4 0 "" SyntaxError ;; upload_onerror)%handler
  end.

Definition upload_failed (o : XhrOutcome) : bool :=
  match o with
  | XhrNetworkError => true
  | XhrDone status _ body =>
      if Z.leb 200 status && Z.ltb status 300 then
        match body with
        | SyntaxError | Parsed PNull => true
        | Parsed (PData _ _) => false
        end
      else true
  end.

End App.

(** ** Frames of the sampling loop *)

(** The media time of the frame, if a video is attached, lies within
    [0, duration]. *)
Definition frame_in_range {E} (f : Timeline.Props E) : bool :=
  match Timeline.attached (Timeline.videoRef f) with
  | Some v =>
      Qle_bool 0 (Timeline.currentTime v)
      && Qle_bool (Timeline.currentTime v) (Timeline.duration f)
  | None => true
  end.

(** ** SegmentList.jsx *)

Module SegmentList.
Import JsNum.

(** One row of the list.  [row_click] is what a click on the row does:
    [onSeek && onSeek(s.start)].  The two formatted times of the row are
    left out: [toFixed] rounds the binary value of the number, which the
    rationals do not model. *)
Record Row (E : Type) : Type := mkRow {
  row_key : nat;
  seg_mode : Timeline.value;
  row_click : list E
}.
Arguments mkRow {E} _ _ _.
Arguments row_key {E} _.
Arguments seg_mode {E} _.
Arguments row_click {E} _.

Definition row {E} (onSeek : option (number -> list E)) (i : nat)
    (s : Timeline.Segment) : Row E :=
  {| row_key := i;
     seg_mode := Timeline.mode s;
     row_click :=
       match onSeek with
       | Some seek => seek (Finite (Timeline.start s))
       | None => []
       end |}.

(** The rendered list: the note "No segments yet" is shown when
    [segments.length === 0]. *)
Record View (E : Type) : Type := mkView {
  empty_note : bool;
  rows : list (Row E)
}.
Arguments mkView {E} _ _.
Arguments empty_note {E} _.
Arguments rows {E} _.

Definition render {E} (segments : list Timeline.Segment)
    (onSeek : option (number -> list E)) : View E :=
  {| empty_note := Nat.eqb (List.length segments) 0;
     rows := Timeline.map_indexed (row onSeek) 0 segments |}.

End SegmentList.

(** ** VideoPlayer.jsx *)

Module VideoPlayer.

(** What the component renders: the [video] element when [src] is truthy,
    the placeholder text otherwise. *)
Inductive View : Type :=
| VideoElement (src : string)
| Placeholder.

Definition render (src : option string) : View :=
  match src with
  | Some s => if String.eqb s "" then Placeholder else VideoElement s
  | None => Placeholder
  end.

(** The forwarded ref after the render: it holds the element [el] when the
    [video] element is rendered and [null] when the placeholder is. *)
Definition ref_after_render (src : option string) (el : Timeline.Video)
  : Timeline.Ref Timeline.Video :=
  match render src with
  | VideoElement _ => Timeline.mkRef (Some el)
  | Placeholder => Timeline.mkRef None
  end.

End VideoPlayer.

(** ** The page as a whole *)

Module Page.
Import JsNum.

(** The props [App] gives to [SegmentList]. *)
Definition segment_list (videoRef : Timeline.Ref Timeline.Video)
    (st : App.State) : SegmentList.View App.Assignment :=
  SegmentList.render (App.segments st) (Some (App.handleSeek videoRef)).

(** The request in flight, if any. *)
Inductive Kind : Type :=
| Analyze
| Upload.

Record World : Type := mkWorld {
  state : App.State;
  pending : option Kind
}.

Definition initial : World := {| state := App.initial; pending := None |}.

(** What happens to the page.  The two buttons are rendered with
    [disabled={loading}]; a response or a progress event needs its request
    to be in flight; the inputs and the player are always live. *)
Inductive Event : Type :=
| ClickAnalyze
| AnalyzeSettled (o : App.FetchOutcome)
| ClickUpload
| UploadSettled (o : App.XhrOutcome)
| Input (ev : App.UiEvent).

Definition after_click (k : Kind) (begin : App.Handler (option App.Request))
    (w : World) : option World :=
  if App.loading (state w) then None
  else
    let (req, st) := begin (state w) in
    Some {| state := st;
            pending := match req with
                       | Some _ => Some k
                       | None => pending w
                       end |}.

Definition step (ev : Event) (w : World) : option World :=
  match ev with
  | ClickAnalyze => after_click Analyze App.handleAnalyze_begin w
  | ClickUpload => after_click Upload App.handleUpload_begin w
  | AnalyzeSettled o =>
      match pending w with
      | Some Analyze =>
          Some {| state := App.exec (App.handleAnalyze_resume o) (state w);
                  pending := None |}
      | _ => None
      end
  | UploadSettled o =>
      match pending w with
      | Some Upload =>
          Some {| state := App.exec (App.handleUpload_resume o) (state w);
                  pending := None |}
      | _ => None
      end
  | Input (App.UploadProgress lc percent) =>
      match pending w with
      | Some Upload =>
          Some {| state := App.exec (App.upload_onprogress lc percent) (state w);
                  pending := pending w |}
      | _ => None
      end
  | Input ev =>
      Some {| state := App.exec (App.ui_step ev) (state w);
              pending := pending w |}
  end.

Fixpoint run (evs : list Event) (w : World) : option World :=
  match evs with
  | [] => Some w
  | ev :: rest =>
      match step ev w with
      | Some w' => run rest w'
      | None => None
      end
  end.

(** What the page shows, as tests. *)
Definition busy (w : World) : bool :=
  match pending w with Some _ => true | None => false end.

Definition uploading (w : World) : bool :=
  match pending w with Some Upload => true | _ => false end.

Definition no_segments (st : App.State) : bool :=
  match App.segments st with [] => true | _ :: _ => false end.

Definition no_error (st : App.State) : bool :=
  match App.error st with None => true | Some _ => false end.

Definition progress_shown (st : App.State) : bool :=
  match App.uploadProgress st with Some _ => true | None => false end.

(** The loading flag is set exactly while a request is in flight; while
    one is, neither segments nor an error are shown; the progress line is
    shown only during an upload; an error and segments are never shown
    together. *)
Definition invariant (w : World) : bool :=
  Bool.eqb (App.loading (state w)) (busy w)
  && implb (busy w) (no_segments (state w) && no_error (state w))
  && implb (progress_shown (state w)) (uploading w)
  && (no_error (state w) || no_segments (state w)).

End Page.

(** * Properties *)

Import JsNum.

(** ** Comparisons of finite numbers *)

Lemma gt_true_iff (a b : Q) : gt a b = true <-> b < a.
Proof.
  unfold gt. rewrite negb_true_iff, <- not_true_iff_false, Qle_bool_iff.
  split; [apply Qnot_le_lt | apply Qlt_not_le].
Qed.

Lemma gt_false_iff (a b : Q) : gt a b = false <-> a <= b.
Proof.
  unfold gt. rewrite negb_false_iff. apply Qle_bool_iff.
Qed.

Lemma le_true_iff (a b : Q) : le a b = true <-> a <= b.
Proof. apply Qle_bool_iff. Qed.

Lemma falsy_true_iff (a : Q) : falsy a = true <-> a == 0.
Proof. apply Qeq_bool_iff. Qed.

Lemma div_nonzero (a b : Q) : ~ b == 0 -> div a b = Finite (a / b).
Proof.
  intros Hb. unfold div.
  destruct (Qeq_bool b 0) eqn:E; [| reflexivity].
  apply Qeq_bool_iff in E. contradiction.
Qed.

Lemma div_zero (a b : Q) : b == 0 -> div a b = NonFinite.
Proof.
  intros Hb. unfold div. apply Qeq_bool_iff in Hb. now rewrite Hb.
Qed.

(** ** The coordinate mapping *)

Section Mapping.
Import Timeline.

Lemma pct_nonpositive (d t : Q) : d <= 0 -> pct d t = 0.
Proof.
  intros Hd. unfold pct.
  apply le_true_iff in Hd. rewrite Hd. now rewrite orb_true_r.
Qed.

Lemma pct_positive (d t : Q) :
  0 < d -> pct d t = Qmax 0 (Qmin 100 ((t / d) * 100)).
Proof.
  intros Hd. unfold pct.
  destruct (falsy d) eqn:F.
  - apply falsy_true_iff in F. lra.
  - destruct (le d 0) eqn:L; [| reflexivity].
    apply le_true_iff in L. lra.
Qed.

Lemma clamp_range (lo hi v : Q) :
  lo <= hi -> lo <= Qmax lo (Qmin hi v) <= hi.
Proof.
  intros H. split.
  - apply Q.le_max_l.
  - apply Q.max_lub; [exact H | apply Q.le_min_l].
Qed.

Lemma clamp_inside (lo hi v : Q) :
  lo <= v <= hi -> Qmax lo (Qmin hi v) == v.
Proof.
  intros [H1 H2].
  rewrite (Q.min_r hi v) by exact H2.
  now apply Q.max_r.
Qed.

Lemma pct_range (d t : Q) : 0 <= pct d t <= 100.
Proof.
  destruct (Qlt_le_dec 0 d) as [Hd | Hd].
  - rewrite (pct_positive d t Hd). apply clamp_range. lra.
  - rewrite (pct_nonpositive d t Hd). lra.
Qed.

Lemma ratio_range (d t : Q) : 0 < d -> 0 <= t <= d -> 0 <= t / d <= 1.
Proof.
  intros Hd [H0 H1]. split.
  - apply Qle_shift_div_l; [exact Hd | lra].
  - apply Qle_shift_div_r; [exact Hd | lra].
Qed.

Lemma pct_inside (d t : Q) :
  0 < d -> 0 <= t <= d -> pct d t == (t / d) * 100.
Proof.
  intros Hd Ht. rewrite (pct_positive d t Hd).
  apply clamp_inside.
  pose proof (ratio_range d t Hd Ht). lra.
Qed.

Lemma width_floor (d : Q) (s : Segment) i :
  2 # 10 <= width (segment_box d i s).
Proof. simpl. apply Q.le_max_l. Qed.

End Mapping.

Lemma Qmax_floor_eq (lo v : Q) : v < lo -> Qmax lo v = lo.
Proof.
  intros H. unfold Qmax, GenericMinMax.gmax.
  destruct (lo ?= v) eqn:C; try reflexivity.
  apply Qlt_alt in C. lra.
Qed.

Lemma Forall_map_indexed {A B} (P : B -> Prop) (f : nat -> A -> B) :
  (forall i a, P (f i a)) ->
  forall l i, Forall P (Timeline.map_indexed f i l).
Proof.
  intros Hf l. induction l as [| a rest IH]; intros i; simpl.
  - constructor.
  - constructor; [apply Hf | apply IH].
Qed.

Lemma map_indexed_length {A B} (f : nat -> A -> B) (l : list A) :
  forall i, List.length (Timeline.map_indexed f i l) = List.length l.
Proof.
  induction l as [| a rest IH]; intros i; simpl; [reflexivity |].
  now rewrite IH.
Qed.

(** C4: [pct] (the spec's timeToPercent) returns 0 when the duration is not
    positive, and otherwise [t / duration * 100] clamped into [0, 100]; in
    both cases the result lies in [0, 100]. *)
Theorem C4_pct_spec (d t : Q) :
  (d <= 0 -> Timeline.pct d t = 0) /\
  (0 < d -> Timeline.pct d t = Qmax 0 (Qmin 100 (t / d * 100))) /\
  0 <= Timeline.pct d t <= 100.
Proof.
  split; [| split].
  - apply pct_nonpositive.
  - apply pct_positive.
  - apply pct_range.
Qed.

Lemma C4_pct_spec_witness :
  Timeline.pct (-3) 7 = 0 /\
  Timeline.pct 200 50 = Qmax 0 (Qmin 100 (50 / 200 * 100)).
Proof.
  split.
  - apply (proj1 (C4_pct_spec (-3) 7)). vm_compute. discriminate.
  - apply (proj1 (proj2 (C4_pct_spec 200 50))). reflexivity.
Defined.

(** C5: a segment whose mapped extent [pct end - pct start] is below 0.2 is
    rendered with the width 0.2 exactly; the witness is the spec's scenario
    B (duration 100, segment from 50.0 to 50.05). *)
Theorem C5_width_floor (d : Q) (i : nat) (s : Timeline.Segment) :
  Timeline.pct d (Timeline.end_ s) - Timeline.pct d (Timeline.start s) < 2 # 10 ->
  Timeline.width (Timeline.segment_box d i s) = 2 # 10.
Proof.
  intros H. simpl. now apply Qmax_floor_eq.
Qed.

Lemma C5_width_floor_witness :
  Timeline.width
    (Timeline.segment_box 100 0
       (Timeline.mkSegment (Timeline.VString "DIALOGUE_SCENE") 50 (5005 # 100)))
  = 2 # 10.
Proof.
  apply C5_width_floor. reflexivity.
Defined.

(** C7: [colorForMode] is a total function of the mode alone: the three
    known modes have their fixed colours, every other value (a string or
    not) has the neutral colour [#94a3b8], and a rendered segment takes its
    background from it. *)
Theorem C7_colorForMode_total (m : Timeline.value) :
  Timeline.colorForMode (Timeline.VString "DIALOGUE_SCENE") = "#4f46e5"%string /\
  Timeline.colorForMode (Timeline.VString "VISUAL_MONTAGE") = "#ef4444"%string /\
  Timeline.colorForMode (Timeline.VString "VOICEOVER_WITH_PICTURE") = "#10b981"%string /\
  (m <> Timeline.VString "DIALOGUE_SCENE" ->
   m <> Timeline.VString "VISUAL_MONTAGE" ->
   m <> Timeline.VString "VOICEOVER_WITH_PICTURE" ->
   Timeline.colorForMode m = "#94a3b8"%string) /\
  (forall d i start end_,
     Timeline.background
       (Timeline.segment_box d i (Timeline.mkSegment m start end_))
     = Timeline.colorForMode m).
Proof.
  repeat split.
  intros H1 H2 H3. unfold Timeline.colorForMode.
  destruct m as [| | b | q | s |]; try reflexivity.
  simpl.
  destruct (String.eqb_spec s "DIALOGUE_SCENE") as [-> | _]; [congruence |].
  destruct (String.eqb_spec s "VISUAL_MONTAGE") as [-> | _]; [congruence |].
  destruct (String.eqb_spec s "VOICEOVER_WITH_PICTURE") as [-> | _];
    [congruence | reflexivity].
Qed.

Lemma C7_colorForMode_total_witness :
  Timeline.colorForMode (Timeline.VString "TITLE_CARD") = "#94a3b8"%string /\
  Timeline.colorForMode Timeline.VUndefined = "#94a3b8"%string.
Proof.
  split.
  - apply (proj1 (proj2 (proj2 (proj2
      (C7_colorForMode_total (Timeline.VString "TITLE_CARD"))))));
      discriminate.
  - apply (proj1 (proj2 (proj2 (proj2
      (C7_colorForMode_total Timeline.VUndefined)))));
      discriminate.
Defined.

Lemma map_indexed_nth_error {A B} (f : nat -> A -> B) (l : list A) :
  forall i k,
    nth_error (Timeline.map_indexed f i l) k
    = option_map (f (i + k)%nat) (nth_error l k).
Proof.
  induction l as [| a rest IH]; intros i k.
  - destruct k; reflexivity.
  - destruct k as [| k]; simpl.
    + now rewrite Nat.add_0_r.
    + rewrite IH. now rewrite Nat.add_succ_comm.
Qed.

(** The right edge of a box can pass the end of the track, by no more than
    the 0.2 floor. *)
Lemma box_right_edge (d : Q) (i : nat) (s : Timeline.Segment) :
  Timeline.left (Timeline.segment_box d i s)
  + Timeline.width (Timeline.segment_box d i s) <= 100 + (2 # 10).
Proof.
  simpl.
  pose proof (pct_range d (Timeline.start s)) as Hs.
  pose proof (pct_range d (Timeline.end_ s)) as He.
  apply Q.max_case_strong; intros; lra.
Qed.

Example box_right_edge_overhang :
  let b := Timeline.segment_box 100 0
             (Timeline.mkSegment Timeline.VNull 100 100) in
  Timeline.left b + Timeline.width b == 100 + (2 # 10).
Proof. reflexivity. Qed.

Lemma box_bounds (d : Q) (i : nat) (s : Timeline.Segment) :
  let b := Timeline.segment_box d i s in
  0 <= Timeline.left b <= 100 /\
  2 # 10 <= Timeline.width b /\
  Timeline.left b + Timeline.width b <= 100 + (2 # 10).
Proof.
  cbv zeta. split; [apply pct_range |].
  split; [apply width_floor | apply box_right_edge].
Qed.

(** C9 as stated fails: with duration 100 a malformed segment from 150 to
    160 is drawn at left offset 100 with width 0.2; its region runs from
    100 to 100.2 percent, past the end of the track. *)
Lemma C9_counterexample :
  let s := Timeline.mkSegment (Timeline.VString "DIALOGUE_SCENE") 150 160 in
  let p := Timeline.mkProps [s] 100 None (Some Timeline.record_seek) in
  exists b,
    nth_error (Timeline.boxes (Timeline.render p 0)) 0 = Some b /\
    Timeline.left b == 100 /\
    Timeline.width b == 2 # 10 /\
    100 < Timeline.left b + Timeline.width b.
Proof.
  cbv zeta. eexists. split; [reflexivity |].
  split; [reflexivity |]. split; reflexivity.
Qed.

(** C9, amended: for every segment, well formed or not, and every
    duration, the segment has its box on the rendered track, at its own
    position, whose left offset lies in [0, 100] and whose width is at
    least 0.2: no region has a negative width and every region starts on
    the track.  Its right edge, left + width, is at most 100.2: a region
    can pass the end of the track, by no more than the 0.2 floor. *)
Theorem C9_boxes_near_track {E} (p : Timeline.Props E) (playhead : Q) :
  (forall k s,
     nth_error (Timeline.segments p) k = Some s ->
     exists b,
       nth_error (Timeline.boxes (Timeline.render p playhead)) k = Some b /\
       0 <= Timeline.left b <= 100 /\
       2 # 10 <= Timeline.width b /\
       Timeline.left b + Timeline.width b <= 100 + (2 # 10)) /\
  Forall (fun b => 0 <= Timeline.left b <= 100 /\
                   2 # 10 <= Timeline.width b /\
                   Timeline.left b + Timeline.width b <= 100 + (2 # 10))
         (Timeline.boxes (Timeline.render p playhead)) /\
  List.length (Timeline.boxes (Timeline.render p playhead))
  = List.length (Timeline.segments p).
Proof.
  split; [| split].
  - intros k s Hs. exists (Timeline.segment_box (Timeline.duration p) k s).
    split.
    + simpl. rewrite map_indexed_nth_error, Hs. reflexivity.
    + apply box_bounds.
  - simpl. apply Forall_map_indexed. intros i s. apply box_bounds.
  - simpl. apply map_indexed_length.
Qed.

Lemma C9_boxes_near_track_witness :
  let s1 := Timeline.mkSegment (Timeline.VString "DIALOGUE_SCENE") 150 160 in
  let s2 := Timeline.mkSegment (Timeline.VString "VISUAL_MONTAGE") 40 (-5) in
  let p := Timeline.mkProps [s1; s2] 100 None (Some Timeline.record_seek) in
  exists b,
    nth_error (Timeline.boxes (Timeline.render p 0)) 1 = Some b /\
    0 <= Timeline.left b <= 100 /\
    2 # 10 <= Timeline.width b /\
    Timeline.left b + Timeline.width b <= 100 + (2 # 10).
Proof.
  cbv zeta.
  exact (proj1 (C9_boxes_near_track
                  (Timeline.mkProps
                     [Timeline.mkSegment (Timeline.VString "DIALOGUE_SCENE")
                        150 160;
                      Timeline.mkSegment (Timeline.VString "VISUAL_MONTAGE")
                        40 (-5)]
                     100 None (Some Timeline.record_seek)) 0)
           1%nat
           (Timeline.mkSegment (Timeline.VString "VISUAL_MONTAGE") 40 (-5))
           eq_refl).
Defined.

(** ** The sampling tick *)

Lemma tick_attached {E} (p : Timeline.Props E) (playhead : Q) (v : Timeline.Video) :
  Timeline.attached (Timeline.videoRef p) = Some v ->
  0 < Timeline.duration p ->
  Timeline.tick p playhead = Timeline.currentTime v / Timeline.duration p.
Proof.
  intros Hv Hd. unfold Timeline.tick, Timeline.tick_publish. rewrite Hv.
  apply gt_true_iff in Hd. now rewrite Hd.
Qed.

Lemma tick_silent {E} (p : Timeline.Props E) (playhead : Q) :
  Timeline.attached (Timeline.videoRef p) = None \/ Timeline.duration p <= 0 ->
  Timeline.tick p playhead = playhead.
Proof.
  intros H. unfold Timeline.tick, Timeline.tick_publish.
  destruct (Timeline.attached (Timeline.videoRef p)) as [v |]; [| reflexivity].
  destruct H as [H | H]; [discriminate |].
  apply gt_false_iff in H. now rewrite H.
Qed.

Lemma run_ticks_silent {E} (frames : list (Timeline.Props E)) (playhead : Q) :
  Forall (fun f => Timeline.duration f <= 0) frames ->
  Timeline.run_ticks frames playhead = playhead.
Proof.
  intros H. induction H as [| f rest Hf _ IH]; simpl; [reflexivity |].
  rewrite (tick_silent f playhead) by (right; exact Hf). exact IH.
Qed.

(** C1 as stated fails: with duration 100 and the media at 150 s the tick
    publishes 3/2, outside [0, 1]; and a tick with duration 0 that follows
    a tick with duration 100 at 50 s leaves 1/2 published, not 0. *)
Lemma C1_counterexample :
  let video t := Some (Timeline.mkRef (Some (Timeline.mkVideo t))) in
  let late := Timeline.mkProps [] 100 (video 150) (Some Timeline.record_seek) in
  let playing := Timeline.mkProps [] 100 (video 50) (Some Timeline.record_seek) in
  let reset := Timeline.mkProps [] 0 (video 50) (Some Timeline.record_seek) in
  Timeline.tick late Timeline.initial_playhead == 3 # 2 /\
  1 < Timeline.tick late Timeline.initial_playhead /\
  Timeline.duration reset <= 0 /\
  Timeline.run_ticks [playing; reset] Timeline.initial_playhead == 1 # 2.
Proof.
  cbv zeta. split; [reflexivity |]. split; [reflexivity |].
  split; [simpl; lra | reflexivity].
Qed.

(** C1, amended: on a tick with a video element attached and duration > 0
    the published playhead is [currentTime / duration], not clamped; it
    lies in [0, 1] when [0 <= currentTime <= duration].  With duration <= 0
    or no video element the tick publishes nothing and the playhead keeps
    its value, which is the initial 0 while every tick so far had
    duration <= 0. *)
Theorem C1_tick_publication {E} (p : Timeline.Props E) (playhead : Q) :
  (forall v, Timeline.attached (Timeline.videoRef p) = Some v ->
     0 < Timeline.duration p ->
     Timeline.tick p playhead = Timeline.currentTime v / Timeline.duration p /\
     (0 <= Timeline.currentTime v <= Timeline.duration p ->
      0 <= Timeline.tick p playhead <= 1)) /\
  (Timeline.attached (Timeline.videoRef p) = None \/ Timeline.duration p <= 0 ->
     Timeline.tick p playhead = playhead) /\
  (forall frames : list (Timeline.Props E),
     Forall (fun f => Timeline.duration f <= 0) frames ->
     Timeline.run_ticks frames Timeline.initial_playhead = 0).
Proof.
  split; [| split].
  - intros v Hv Hd. split.
    + now apply tick_attached.
    + intros Ht. rewrite (tick_attached p playhead v Hv Hd).
      now apply ratio_range.
  - apply tick_silent.
  - intros frames H. now apply run_ticks_silent.
Qed.

Lemma C1_tick_publication_witness :
  let video t := Some (Timeline.mkRef (Some (Timeline.mkVideo t))) in
  let playing := Timeline.mkProps [] 120 (video 30) (Some Timeline.record_seek) in
  let unknown := Timeline.mkProps [] 0 (video 30) (Some Timeline.record_seek) in
  (Timeline.tick playing (7 # 10) = 30 / 120 /\
   0 <= Timeline.tick playing (7 # 10) <= 1) /\
  Timeline.tick unknown (7 # 10) = 7 # 10 /\
  Timeline.run_ticks [unknown; unknown] Timeline.initial_playhead = 0.
Proof.
  cbv zeta. split; [| split].
  - pose proof (proj1 (C1_tick_publication
        (Timeline.mkProps [] 120
           (Some (Timeline.mkRef (Some (Timeline.mkVideo 30))))
           (Some Timeline.record_seek)) (7 # 10))
        (Timeline.mkVideo 30) eq_refl eq_refl) as [Heq Hrange].
    split; [exact Heq | apply Hrange; simpl; lra].
  - apply (proj1 (proj2 (C1_tick_publication
        (Timeline.mkProps [] 0
           (Some (Timeline.mkRef (Some (Timeline.mkVideo 30))))
           (Some Timeline.record_seek)) (7 # 10)))).
    right. simpl. lra.
  - apply (proj2 (proj2 (C1_tick_publication
        (Timeline.mkProps [] 0
           (Some (Timeline.mkRef (Some (Timeline.mkVideo 30))))
           (Some Timeline.record_seek)) 0))).
    repeat constructor; simpl; lra.
Defined.

(** ** The click handler *)

(** With the track attached, a callback given and a nonzero measured
    width, [handleClick] is one call of [onSeek] at [(x / W) * duration]. *)
Lemma handleClick_calls_onSeek {E} (p : Timeline.Props E)
    (rect : Timeline.Rect) (seek : number -> list E) (clientX : Q) :
  Timeline.onSeek p = Some seek ->
  ~ Timeline.rect_width rect == 0 ->
  Timeline.handleClick p (Timeline.mkRef (Some rect)) clientX
  = seek (Finite ((clientX - Timeline.rect_left rect)
                  / Timeline.rect_width rect * Timeline.duration p)).
Proof.
  intros Hseek Hw. unfold Timeline.handleClick. simpl.
  rewrite Hseek. now rewrite (div_nonzero _ _ Hw).
Qed.

(** On a track measured with zero width the quotient is not finite, and
    [onSeek] is still called. *)
Lemma handleClick_zero_width {E} (p : Timeline.Props E)
    (rect : Timeline.Rect) (seek : number -> list E) (clientX : Q) :
  Timeline.onSeek p = Some seek ->
  Timeline.rect_width rect == 0 ->
  Timeline.handleClick p (Timeline.mkRef (Some rect)) clientX = seek NonFinite.
Proof.
  intros Hseek Hw. unfold Timeline.handleClick. simpl.
  rewrite Hseek. now rewrite (div_zero _ _ Hw).
Qed.

Lemma handleClick_ignored {E} (p : Timeline.Props E)
    (containerRef : Timeline.Ref Timeline.Rect) (clientX : Q) :
  Timeline.current containerRef = None \/ Timeline.onSeek p = None ->
  Timeline.handleClick p containerRef clientX = [].
Proof.
  intros H. unfold Timeline.handleClick.
  destruct (Timeline.current containerRef) as [rect |]; [| reflexivity].
  destruct H as [H | H]; [discriminate |]. now rewrite H.
Qed.

(** C2 as stated fails: with duration 0, a click at offset 25 on a track of
    width 100 issues a seek request, for time 0. *)
Lemma C2_counterexample :
  let p := Timeline.mkProps [] 0 None (Some Timeline.record_seek) in
  let track := Timeline.mkRef (Some (Timeline.mkRect 0 100)) in
  Timeline.duration p <= 0 /\
  Timeline.handleClick p track 25 = [Finite ((25 - 0) / 100 * 0)] /\
  (25 - 0) / 100 * 0 == 0 /\
  Timeline.handleClick p track 25 <> [].
Proof.
  cbv zeta. split; [simpl; lra |]. split; [reflexivity |].
  split; [reflexivity | discriminate].
Qed.

(** C2, amended: a pointer interaction issues no seek request when the
    track element is not attached or no [onSeek] callback is given.  On an
    attached track of nonzero width with a callback it calls [onSeek] once
    whatever the duration, at [(x / W) * duration], which is 0 when the
    duration is 0. *)
Theorem C2_click_guard {E} (p : Timeline.Props E)
    (containerRef : Timeline.Ref Timeline.Rect) (clientX : Q) :
  (Timeline.current containerRef = None \/ Timeline.onSeek p = None ->
     Timeline.handleClick p containerRef clientX = []) /\
  (forall rect seek,
     Timeline.current containerRef = Some rect ->
     Timeline.onSeek p = Some seek ->
     ~ Timeline.rect_width rect == 0 ->
     let t := (clientX - Timeline.rect_left rect)
              / Timeline.rect_width rect * Timeline.duration p in
     Timeline.handleClick p containerRef clientX = seek (Finite t) /\
     (Timeline.duration p == 0 -> t == 0)).
Proof.
  split.
  - apply handleClick_ignored.
  - intros rect seek Hc Hs Hw t. split.
    + destruct containerRef as [c]. simpl in Hc. subst c.
      now apply handleClick_calls_onSeek.
    + intros Hd. unfold t. rewrite Hd. ring.
Qed.

Lemma C2_click_guard_witness :
  let p := Timeline.mkProps [] 0 None (Some Timeline.record_seek) in
  let silent := Timeline.mkProps (E := number) [] 0 None None in
  let track := Timeline.mkRef (Some (Timeline.mkRect 8 100)) in
  Timeline.handleClick silent track 33 = [] /\
  Timeline.handleClick p track 33 = [Finite ((33 - 8) / 100 * 0)] /\
  (33 - 8) / 100 * 0 == 0.
Proof.
  cbv zeta. split.
  - apply (proj1 (C2_click_guard
        (Timeline.mkProps (E := number) [] 0 None None)
        (Timeline.mkRef (Some (Timeline.mkRect 8 100))) 33)).
    right. reflexivity.
  - pose proof (proj2 (C2_click_guard
        (Timeline.mkProps [] 0 None (Some Timeline.record_seek))
        (Timeline.mkRef (Some (Timeline.mkRect 8 100))) 33)
        (Timeline.mkRect 8 100) Timeline.record_seek eq_refl eq_refl) as H.
    simpl in H.
    assert (Hw : ~ 100 == 0) by (intros C; discriminate C).
    destruct (H Hw) as [Hcall Hzero].
    split; [exact Hcall | apply Hzero; reflexivity].
Defined.

(** C3 as stated fails: the fraction is not clamped, so a click reported at
    offset 150 of a track of width 100 with duration 200 requests time 300
    where the clamped fraction gives 200; and with no video element
    attached a click makes no assignment at all. *)
Lemma C3_counterexample :
  let track := Timeline.mkRef (Some (Timeline.mkRect 0 100)) in
  let p := Timeline.mkProps [] 200 None (Some Timeline.record_seek) in
  let st := App.mkState None None "" [] 200 false None None in
  Timeline.handleClick p track 150 = [Finite ((150 - 0) / 100 * 200)] /\
  (150 - 0) / 100 * 200 == 300 /\
  Qmax 0 (Qmin 1 ((150 - 0) / 100)) * 200 == 200 /\
  Timeline.handleClick (App.timeline_props (Timeline.mkRef None) st) track 25 = [].
Proof.
  cbv zeta. repeat split; reflexivity.
Qed.

(** C3, amended: on a track of nonzero width with duration > 0 a click at
    offset [x] calls the seek handler once with the time [(x / W) *
    duration], the fraction not clamped; this is [clamp(x / W, 0, 1) *
    duration] when [0 <= x <= W].  The handler makes exactly one
    assignment to the current time of the video element when one is
    attached, and none otherwise.  A click at [x = 0.25 * W] with duration
    200 requests time 50. *)
Theorem C3_click_seeks (videoRef : Timeline.Ref Timeline.Video)
    (st : App.State) (rect : Timeline.Rect) (clientX : Q) :
  ~ Timeline.rect_width rect == 0 ->
  0 < App.duration st ->
  let x := clientX - Timeline.rect_left rect in
  let W := Timeline.rect_width rect in
  let t := x / W * App.duration st in
  let click := Timeline.handleClick (App.timeline_props videoRef st)
                 (Timeline.mkRef (Some rect)) clientX in
  click = App.handleSeek videoRef (Finite t) /\
  (forall v, Timeline.current videoRef = Some v ->
     click = [App.AssignCurrentTime (Finite t)]) /\
  (Timeline.current videoRef = None -> click = []) /\
  (0 <= x <= W -> t == Qmax 0 (Qmin 1 (x / W)) * App.duration st) /\
  (x == (1 # 4) * W -> App.duration st == 200 -> t == 50).
Proof.
  intros Hw Hd x W t click.
  assert (Hclick : click = App.handleSeek videoRef (Finite t)).
  { unfold click.
    now rewrite (handleClick_calls_onSeek (App.timeline_props videoRef st)
                   rect (App.handleSeek videoRef) clientX eq_refl Hw). }
  split; [exact Hclick |]. split; [| split; [| split]].
  - intros v Hv. rewrite Hclick. unfold App.handleSeek. now rewrite Hv.
  - intros Hv. rewrite Hclick. unfold App.handleSeek. now rewrite Hv.
  - intros [H0 H1].
    assert (HW : 0 < W).
    { destruct (Qlt_le_dec 0 W) as [HW | HW]; [exact HW |].
      exfalso. apply Hw. fold W. lra. }
    unfold t. rewrite (clamp_inside 0 1 (x / W)); [reflexivity |].
    apply ratio_range; [exact HW | split; assumption].
  - intros Hx H200. unfold t. rewrite Hx, H200. field. exact Hw.
Qed.

Lemma C3_click_seeks_witness :
  let video := Timeline.mkRef (Some (Timeline.mkVideo 12)) in
  let st := App.mkState None None "" [] 200 false None None in
  Timeline.handleClick (App.timeline_props video st)
    (Timeline.mkRef (Some (Timeline.mkRect 40 320))) 120
  = [App.AssignCurrentTime (Finite ((120 - 40) / 320 * 200))] /\
  (120 - 40) / 320 * 200 == 50.
Proof.
  cbv zeta.
  assert (Hw : ~ 320 == 0) by (intros C; discriminate C).
  assert (Hd : 0 < 200) by reflexivity.
  pose proof (C3_click_seeks (Timeline.mkRef (Some (Timeline.mkVideo 12)))
                (App.mkState None None "" [] 200 false None None)
                (Timeline.mkRect 40 320) 120 Hw Hd) as H.
  cbv zeta in H. destruct H as (_ & Hone & _ & _ & Hscenario).
  split.
  - exact (Hone (Timeline.mkVideo 12) eq_refl).
  - apply Hscenario; reflexivity.
Defined.

(** C6: for duration > 0 and [t] in [0, duration], mapping [t] to its
    percentage and the fraction [pct / 100] back to a time gives [t]: the
    product [fraction * duration] of [handleClick] inverts [pct], and a
    click on the point of the track where [t] is drawn requests the time
    [t].  Arithmetic is exact in the model, so the two sides are equal. *)
Theorem C6_roundtrip {E} (p : Timeline.Props E) (rect : Timeline.Rect)
    (seek : number -> list E) (t : Q) :
  0 < Timeline.duration p ->
  0 <= t <= Timeline.duration p ->
  Timeline.pct (Timeline.duration p) t / 100 * Timeline.duration p == t /\
  (Timeline.onSeek p = Some seek ->
   ~ Timeline.rect_width rect == 0 ->
   exists q,
     Timeline.handleClick p (Timeline.mkRef (Some rect))
       (Timeline.rect_left rect
        + Timeline.pct (Timeline.duration p) t / 100 * Timeline.rect_width rect)
     = seek (Finite q) /\ q == t).
Proof.
  intros Hd Ht.
  pose proof (pct_inside _ t Hd Ht) as Hp.
  assert (Hd0 : ~ Timeline.duration p == 0) by lra.
  split.
  - rewrite Hp. field. exact Hd0.
  - intros Hseek Hw. eexists. split.
    + now apply handleClick_calls_onSeek.
    + rewrite Hp. field. split; assumption.
Qed.

Lemma C6_roundtrip_witness :
  let p := Timeline.mkProps [] 200 None (Some Timeline.record_seek) in
  Timeline.pct 200 50 / 100 * 200 == 50 /\
  exists q,
    Timeline.handleClick p (Timeline.mkRef (Some (Timeline.mkRect 40 320)))
      (40 + Timeline.pct 200 50 / 100 * 320)
    = [Finite q] /\ q == 50.
Proof.
  cbv zeta.
  assert (Hd : 0 < 200) by reflexivity.
  assert (Ht : 0 <= 50 <= 200) by (split; discriminate).
  assert (Hw : ~ 320 == 0) by (intros C; discriminate C).
  pose proof (C6_roundtrip
                (Timeline.mkProps [] 200 None (Some Timeline.record_seek))
                (Timeline.mkRect 40 320) Timeline.record_seek 50 Hd Ht)
    as [Hinv Hclick].
  split; [exact Hinv | exact (Hclick eq_refl Hw)].
Defined.

(** ** Degenerate renders *)

(** C8 as stated fails: a local file of 100 s plays at 50 s, a tick
    publishes 1/2, then [handleAnalyze] resets the duration to 0; the next
    tick publishes nothing and the track rendered with duration 0 has its
    playhead at 50 percent, not at 0. *)
Lemma C8_counterexample :
  let video := Timeline.mkRef (Some (Timeline.mkVideo 50)) in
  let shown := App.mkState (Some "clip.mov"%string) (Some "blob:1"%string)
                 "videos/a.mp4" [] 100 false None None in
  let playing := App.timeline_props video shown in
  let reset := App.timeline_props video (App.exec App.handleAnalyze_begin shown) in
  let playhead := Timeline.run_ticks [playing; reset] Timeline.initial_playhead in
  Timeline.duration reset = 0 /\
  Timeline.playhead_left (Timeline.render reset playhead) == 50 /\
  ~ Timeline.playhead_left (Timeline.render reset playhead) == 0.
Proof.
  cbv zeta. split; [reflexivity |]. split; [reflexivity |].
  intros C. discriminate C.
Qed.

(** C8, amended: with duration 0 every segment has its box on the track,
    at its own position, drawn at left offset 0 with the floor width 0.2,
    and the tick leaves the playhead where it was: the marker is at 0 from
    the initial state and after any run of ticks that all had
    duration <= 0.  With no segments the track has no boxes. *)
Theorem C8_degenerate_render {E} (p : Timeline.Props E) (playhead : Q) :
  (Timeline.duration p == 0 ->
     (forall k s,
        nth_error (Timeline.segments p) k = Some s ->
        exists b,
          nth_error (Timeline.boxes (Timeline.render p playhead)) k = Some b /\
          Timeline.left b = 0 /\ Timeline.width b = 2 # 10) /\
     List.length (Timeline.boxes (Timeline.render p playhead))
     = List.length (Timeline.segments p) /\
     Forall (fun b => Timeline.left b = 0 /\ Timeline.width b = 2 # 10)
            (Timeline.boxes (Timeline.render p playhead)) /\
     Timeline.playhead_left (Timeline.render p (Timeline.tick p playhead))
     = playhead * 100) /\
  (forall frames : list (Timeline.Props E),
     Forall (fun f => Timeline.duration f <= 0) frames ->
     Timeline.playhead_left
       (Timeline.render p (Timeline.run_ticks frames Timeline.initial_playhead))
     == 0) /\
  (Timeline.segments p = [] ->
     Timeline.boxes (Timeline.render p playhead) = []).
Proof.
  split; [| split].
  - intros Hd. assert (Hle : Timeline.duration p <= 0) by lra.
    split; [| split; [| split]].
    + intros k s Hs.
      exists (Timeline.segment_box (Timeline.duration p) k s). split.
      * simpl. rewrite map_indexed_nth_error, Hs. reflexivity.
      * simpl. rewrite !(pct_nonpositive _ _ Hle). split; reflexivity.
    + simpl. apply map_indexed_length.
    + simpl. apply Forall_map_indexed. intros i s. simpl.
      rewrite !(pct_nonpositive _ _ Hle). split; reflexivity.
    + simpl. rewrite (tick_silent p playhead) by (right; exact Hle).
      reflexivity.
  - intros frames H. simpl. rewrite (run_ticks_silent frames _ H).
    reflexivity.
  - intros Hs. simpl. now rewrite Hs.
Qed.

Lemma C8_degenerate_render_witness :
  let s1 := Timeline.mkSegment (Timeline.VString "VISUAL_MONTAGE") 10 20 in
  let s2 := Timeline.mkSegment (Timeline.VString "DIALOGUE_SCENE") 20 45 in
  let p := Timeline.mkProps [s1; s2] 0 None (Some Timeline.record_seek) in
  let empty := Timeline.mkProps [] 0 None (Some Timeline.record_seek) in
  (exists b,
     nth_error (Timeline.boxes (Timeline.render p 0)) 1 = Some b /\
     Timeline.left b = 0 /\ Timeline.width b = 2 # 10) /\
  List.length (Timeline.boxes (Timeline.render p 0)) = 2%nat /\
  Timeline.playhead_left
    (Timeline.render p (Timeline.run_ticks [p; p] Timeline.initial_playhead))
  == 0 /\
  Timeline.boxes (Timeline.render empty 0) = [].
Proof.
  cbv zeta.
  pose proof (C8_degenerate_render
        (Timeline.mkProps
           [Timeline.mkSegment (Timeline.VString "VISUAL_MONTAGE") 10 20;
            Timeline.mkSegment (Timeline.VString "DIALOGUE_SCENE") 20 45]
           0 None (Some Timeline.record_seek)) 0) as (Hzero & Hplay & _).
  assert (Hd : 0 == 0) by reflexivity.
  destruct (Hzero Hd) as (Hseg & Hlen & _ & _).
  split; [| split; [| split]].
  - exact (Hseg 1%nat
             (Timeline.mkSegment (Timeline.VString "DIALOGUE_SCENE") 20 45)
             eq_refl).
  - exact Hlen.
  - apply Hplay. repeat constructor; simpl; lra.
  - apply (proj2 (proj2 (C8_degenerate_render
        (Timeline.mkProps [] 0 None (Some Timeline.record_seek)) 0))).
    reflexivity.
Defined.

(** ** The analysis and upload handlers *)

Ltac run_handler :=
  unfold App.exec, App.handleAnalyze_begin, App.handleUpload_begin,
    App.handleAnalyze_resume, App.handleUpload_resume,
    App.upload_onreadystatechange, App.upload_onerror, App.upload_onprogress,
    App.handleLocalFile, App.store_payload, App.bind, App.ret, App.get,
    App.setError, App.setSegments, App.setDuration, App.setLoading,
    App.setUploadProgress, App.setLocalFile, App.setLocalURL,
    App.setServerPath;
  simpl.

Lemma analyze_begin_resets (st : App.State) :
  App.segments (App.exec App.handleAnalyze_begin st) = [] /\
  App.duration (App.exec App.handleAnalyze_begin st) = 0.
Proof.
  run_handler. destruct (String.eqb (App.serverPath st) ""); split; reflexivity.
Qed.

Lemma upload_begin_resets (st : App.State) :
  App.segments (App.exec App.handleUpload_begin st) = [] /\
  App.duration (App.exec App.handleUpload_begin st) = 0.
Proof.
  run_handler. destruct (App.localFile st); split; reflexivity.
Qed.

Lemma ui_step_segments (ev : App.UiEvent) (st : App.State) :
  App.segments (App.exec (App.ui_step ev) st) = App.segments st.
Proof.
  destruct ev as [[f |] url | path | [|] percent | d]; reflexivity.
Qed.

Lemma ui_step_duration (ev : App.UiEvent) (st : App.State) :
  App.is_metadata ev = false ->
  App.duration (App.exec (App.ui_step ev) st) = App.duration st.
Proof.
  destruct ev as [[f |] url | path | [|] percent | d]; intros H;
    try reflexivity; discriminate H.
Qed.

Lemma ui_run_segments (evs : list App.UiEvent) :
  forall st, App.segments (App.ui_run evs st) = App.segments st.
Proof.
  induction evs as [| ev rest IH]; intros st; simpl; [reflexivity |].
  rewrite IH. apply ui_step_segments.
Qed.

Lemma ui_run_duration (evs : list App.UiEvent) :
  existsb App.is_metadata evs = false ->
  forall st, App.duration (App.ui_run evs st) = App.duration st.
Proof.
  induction evs as [| ev rest IH]; intros H st; simpl; [reflexivity |].
  simpl in H. apply orb_false_iff in H as [Hev Hrest].
  rewrite (IH Hrest). now apply ui_step_duration.
Qed.

Lemma analyze_failure_keeps (o : App.FetchOutcome) (st : App.State) :
  App.analyze_failed o = true ->
  App.segments (App.exec (App.handleAnalyze_resume o) st) = App.segments st /\
  App.duration (App.exec (App.handleAnalyze_resume o) st) = App.duration st.
Proof.
  intros H. destruct o as [e | status txt | status e | e | [| segs dur]];
    try discriminate H; split; reflexivity.
Qed.

Lemma upload_failure_keeps (o : App.XhrOutcome) (st : App.State) :
  App.upload_failed o = true ->
  App.segments (App.exec (App.handleUpload_resume o) st) = App.segments st /\
  App.duration (App.exec (App.handleUpload_resume o) st) = App.duration st.
Proof.
  intros H. destruct o as [status statusText body |].
  - run_handler. simpl in H.
    destruct (Z.leb 200 status && Z.ltb status 300).
    + destruct body as [| [| segs dur]]; try discriminate H;
        split; reflexivity.
    + split; reflexivity.
  - split; reflexivity.
Qed.

(** C10 as stated fails: a local file is chosen, Analyze is clicked, the
    player reports the metadata of the file (100 s) while the request is
    in flight, and the response is a 500: the analysis has failed and the
    duration is 100, not 0.  The segments are empty. *)
Lemma C10_counterexample :
  exists w,
    Page.run [Page.Input (App.LocalFileChosen (Some "clip.mov"%string) "blob:1");
              Page.ClickAnalyze;
              Page.Input (App.LoadedMetadata 100);
              Page.AnalyzeSettled (App.NotOk 500 "boom")] Page.initial
    = Some w /\
    App.analyze_failed (App.NotOk 500 "boom") = true /\
    App.duration (Page.state w) = 100 /\
    ~ App.duration (Page.state w) == 0 /\
    App.segments (Page.state w) = [].
Proof.
  match goal with
  | |- exists w, ?r = Some w /\ _ =>
      let v := eval vm_compute in r in
      match v with
      | Some ?w0 =>
          assert (Hrun : r = Some w0) by (vm_compute; reflexivity);
          exists w0
      end
  end.
  split; [exact Hrun |]. split; [reflexivity |]. split; [reflexivity |].
  split; [intros C; discriminate C | reflexivity].
Qed.

(** C10, amended: [handleAnalyze] and [handleUpload] first set segments to
    the empty list and duration to 0, before any request leaves.  When the
    request then fails (network error, non-OK status, unreadable or
    unparsable body) the failure path sets neither of the two: segments
    are still empty, whatever happened to the inputs meanwhile, and the
    duration is what it was when the response arrived, which is 0 unless
    the player reported the metadata of a local file while the request was
    in flight.  A failed request never leaves the previous segments
    displayed. *)
Theorem C10_failed_request_clears_result (st : App.State)
    (evs : list App.UiEvent) :
  (let sent := App.exec App.handleAnalyze_begin st in
   App.segments sent = [] /\ App.duration sent = 0 /\
   forall o, App.analyze_failed o = true ->
     let final := App.exec (App.handleAnalyze_resume o) (App.ui_run evs sent) in
     App.segments final = [] /\
     App.duration final = App.duration (App.ui_run evs sent) /\
     (existsb App.is_metadata evs = false -> App.duration final = 0)) /\
  (let sent := App.exec App.handleUpload_begin st in
   App.segments sent = [] /\ App.duration sent = 0 /\
   forall o, App.upload_failed o = true ->
     let final := App.exec (App.handleUpload_resume o) (App.ui_run evs sent) in
     App.segments final = [] /\
     App.duration final = App.duration (App.ui_run evs sent) /\
     (existsb App.is_metadata evs = false -> App.duration final = 0)).
Proof.
  split.
  - destruct (analyze_begin_resets st) as [Hs Hd].
    cbv zeta. split; [exact Hs |]. split; [exact Hd |].
    intros o Ho.
    destruct (analyze_failure_keeps o
                (App.ui_run evs (App.exec App.handleAnalyze_begin st)) Ho)
      as [Ks Kd].
    split; [| split].
    + rewrite Ks, ui_run_segments. exact Hs.
    + exact Kd.
    + intros Hev. rewrite Kd, (ui_run_duration evs Hev). exact Hd.
  - destruct (upload_begin_resets st) as [Hs Hd].
    cbv zeta. split; [exact Hs |]. split; [exact Hd |].
    intros o Ho.
    destruct (upload_failure_keeps o
                (App.ui_run evs (App.exec App.handleUpload_begin st)) Ho)
      as [Ks Kd].
    split; [| split].
    + rewrite Ks, ui_run_segments. exact Hs.
    + exact Kd.
    + intros Hev. rewrite Kd, (ui_run_duration evs Hev). exact Hd.
Qed.

Lemma C10_failed_request_clears_result_witness :
  let seg := Timeline.mkSegment (Timeline.VString "DIALOGUE_SCENE") 10 20 in
  let shown := App.mkState (Some "clip.mov"%string) (Some "blob:1"%string)
                 "videos/a.mp4" [seg] 100 false None None in
  let evs := [App.ServerPathEdited "videos/b.mp4"; App.UploadProgress true 40] in
  let after_analyze :=
    App.exec (App.handleAnalyze_resume (App.NotOk 500 "boom"))
      (App.ui_run evs (App.exec App.handleAnalyze_begin shown)) in
  let after_upload :=
    App.exec (App.handleUpload_resume App.XhrNetworkError)
      (App.ui_run evs (App.exec App.handleUpload_begin shown)) in
  (App.segments after_analyze = [] /\ App.duration after_analyze = 0) /\
  (App.segments after_upload = [] /\ App.duration after_upload = 0).
Proof.
  cbv zeta.
  pose proof (C10_failed_request_clears_result
    (App.mkState (Some "clip.mov"%string) (Some "blob:1"%string)
       "videos/a.mp4"
       [Timeline.mkSegment (Timeline.VString "DIALOGUE_SCENE") 10 20]
       100 false None None)
    [App.ServerPathEdited "videos/b.mp4"; App.UploadProgress true 40])
    as [(_ & _ & Ha) (_ & _ & Hu)].
  split.
  - destruct (Ha (App.NotOk 500 "boom") eq_refl) as (Hs & _ & Hd).
    split; [exact Hs | exact (Hd eq_refl)].
  - destruct (Hu App.XhrNetworkError eq_refl) as (Hs & _ & Hd).
    split; [exact Hs | exact (Hd eq_refl)].
Defined.

(** * Further properties of the components *)

(** ** Layout of the track *)

Lemma scaled_ratio_le (d t1 t2 : Q) :
  0 < d -> t1 <= t2 -> t1 / d * 100 <= t2 / d * 100.
Proof.
  intros Hd Ht.
  assert (Hinv : 0 < / d) by (apply Qinv_lt_0_compat; exact Hd).
  unfold Qdiv.
  apply Qmult_le_compat_r; [| lra].
  apply Qmult_le_compat_r; [exact Ht | lra].
Qed.

Lemma pct_le (d t1 t2 : Q) :
  t1 <= t2 -> Timeline.pct d t1 <= Timeline.pct d t2.
Proof.
  intros Ht. destruct (Qlt_le_dec 0 d) as [Hd | Hd].
  - rewrite !(pct_positive d _ Hd).
    apply Q.max_le_compat_l, Q.min_le_compat_l.
    now apply scaled_ratio_le.
  - rewrite !(pct_nonpositive d _ Hd). lra.
Qed.

Lemma extent_inside (d a b : Q) :
  0 < d -> 0 <= a -> a <= b -> b <= d ->
  Timeline.pct d b - Timeline.pct d a == (b - a) / d * 100.
Proof.
  intros Hd H0 Hab Hb.
  rewrite (pct_inside d b Hd) by (split; lra).
  rewrite (pct_inside d a Hd) by (split; lra).
  field. lra.
Qed.

Lemma box_proportional (d : Q) (i : nat) (s : Timeline.Segment) :
  0 < d ->
  0 <= Timeline.start s -> Timeline.start s <= Timeline.end_ s ->
  Timeline.end_ s <= d ->
  2 # 10 <= (Timeline.end_ s - Timeline.start s) / d * 100 ->
  Timeline.left (Timeline.segment_box d i s) == Timeline.start s / d * 100 /\
  Timeline.width (Timeline.segment_box d i s)
  == (Timeline.end_ s - Timeline.start s) / d * 100.
Proof.
  intros Hd H0 Hse He Hlong. simpl. split.
  - apply pct_inside; [exact Hd | split; lra].
  - pose proof (extent_inside d _ _ Hd H0 Hse He) as Hext.
    rewrite Q.max_r; [exact Hext |]. rewrite Hext. exact Hlong.
Qed.

(** [pct] is order preserving in the time, for every duration: a later time
    is never drawn to the left of an earlier one, and a segment with
    [start <= end] has a mapped extent that is not negative. *)
Theorem X1_pct_monotone (d t1 t2 : Q) :
  t1 <= t2 ->
  Timeline.pct d t1 <= Timeline.pct d t2 /\
  0 <= Timeline.pct d t2 - Timeline.pct d t1.
Proof.
  intros Ht. pose proof (pct_le d t1 t2 Ht). split; lra.
Qed.

Lemma X1_pct_monotone_witness :
  Timeline.pct 100 10 <= Timeline.pct 100 250 /\
  0 <= Timeline.pct 100 250 - Timeline.pct 100 10.
Proof.
  apply X1_pct_monotone. discriminate.
Defined.

(** A segment inside the playable range that is at least 0.2 percent of
    the duration long is drawn to scale: its left offset is
    [start / duration * 100] and its width [(end - start) / duration * 100]
    (the spec's scenario A has duration 100 and a segment from 10 to 20). *)
Theorem X2_box_to_scale (d : Q) (i : nat) (s : Timeline.Segment) :
  0 < d ->
  0 <= Timeline.start s -> Timeline.start s <= Timeline.end_ s ->
  Timeline.end_ s <= d ->
  2 # 10 <= (Timeline.end_ s - Timeline.start s) / d * 100 ->
  Timeline.left (Timeline.segment_box d i s) == Timeline.start s / d * 100 /\
  Timeline.width (Timeline.segment_box d i s)
  == (Timeline.end_ s - Timeline.start s) / d * 100.
Proof. apply box_proportional. Qed.

Lemma X2_box_to_scale_witness :
  let s := Timeline.mkSegment (Timeline.VString "DIALOGUE_SCENE") 10 20 in
  Timeline.left (Timeline.segment_box 100 0 s) == 10 / 100 * 100 /\
  Timeline.width (Timeline.segment_box 100 0 s) == (20 - 10) / 100 * 100.
Proof.
  cbv zeta.
  apply (X2_box_to_scale 100 0
           (Timeline.mkSegment (Timeline.VString "DIALOGUE_SCENE") 10 20));
    simpl; try reflexivity; discriminate.
Defined.

(** Segments that follow one another tile the track: when a segment drawn
    to scale ends where the next one starts, the next box begins exactly at
    the right edge of the first, with no gap and no overlap. *)
Theorem X3_adjacent_boxes_tile (d : Q) (i j : nat) (s1 s2 : Timeline.Segment) :
  0 < d ->
  0 <= Timeline.start s1 -> Timeline.start s1 <= Timeline.end_ s1 ->
  Timeline.end_ s1 <= d ->
  2 # 10 <= (Timeline.end_ s1 - Timeline.start s1) / d * 100 ->
  Timeline.start s2 = Timeline.end_ s1 ->
  Timeline.left (Timeline.segment_box d j s2)
  == Timeline.left (Timeline.segment_box d i s1)
     + Timeline.width (Timeline.segment_box d i s1).
Proof.
  intros Hd H0 Hse He Hlong Hnext.
  destruct (box_proportional d i s1 Hd H0 Hse He Hlong) as [Hl Hw].
  rewrite Hl, Hw. simpl. rewrite Hnext.
  rewrite (pct_inside d _ Hd) by (split; lra).
  field. lra.
Qed.

Lemma X3_adjacent_boxes_tile_witness :
  let s1 := Timeline.mkSegment (Timeline.VString "DIALOGUE_SCENE") 10 20 in
  let s2 := Timeline.mkSegment (Timeline.VString "VISUAL_MONTAGE") 20 45 in
  Timeline.left (Timeline.segment_box 100 1 s2)
  == Timeline.left (Timeline.segment_box 100 0 s1)
     + Timeline.width (Timeline.segment_box 100 0 s1).
Proof.
  cbv zeta.
  apply (X3_adjacent_boxes_tile 100 0 1
           (Timeline.mkSegment (Timeline.VString "DIALOGUE_SCENE") 10 20)
           (Timeline.mkSegment (Timeline.VString "VISUAL_MONTAGE") 20 45));
    simpl; try reflexivity; discriminate.
Defined.


(** ** Colours and the legend *)

Lemma colorForMode_known (m : Timeline.value) (label : string) :
  label = "DIALOGUE_SCENE"%string \/ label = "VISUAL_MONTAGE"%string \/
  label = "VOICEOVER_WITH_PICTURE"%string ->
  (Timeline.colorForMode m = Timeline.colorForMode (Timeline.VString label)
   <-> m = Timeline.VString label).
Proof.
  intros Hl. split; [| now intros ->].
  unfold Timeline.colorForMode at 1.
  destruct m as [| | b | q | s |]; simpl;
    try (destruct Hl as [-> | [-> | ->]]; discriminate).
  destruct (String.eqb_spec s "DIALOGUE_SCENE") as [-> | _].
  { destruct Hl as [-> | [-> | ->]]; [reflexivity | discriminate ..]. }
  destruct (String.eqb_spec s "VISUAL_MONTAGE") as [-> | _].
  { destruct Hl as [-> | [-> | ->]];
      [discriminate | reflexivity | discriminate]. }
  destruct (String.eqb_spec s "VOICEOVER_WITH_PICTURE") as [-> | _].
  { destruct Hl as [-> | [-> | ->]];
      [discriminate | discriminate | reflexivity]. }
  destruct Hl as [-> | [-> | ->]]; discriminate.
Qed.

(** The legend can be read backwards: a segment has the colour of a legend
    entry exactly when its mode is that entry's label, so the three known
    modes have three different colours and no other mode, string or not,
    shares one of them. *)
Theorem X5_colour_identifies_mode {E} (p : Timeline.Props E) (playhead d : Q)
    (i : nat) (s : Timeline.Segment) (colour label : string) :
  In (colour, label) (Timeline.legend (Timeline.render p playhead)) ->
  (Timeline.background (Timeline.segment_box d i s) = colour
   <-> Timeline.mode s = Timeline.VString label).
Proof.
  intros Hin. simpl in Hin.
  destruct Hin as [H | [H | [H | []]]]; inversion H; subst; clear H;
    apply colorForMode_known; auto.
Qed.

Lemma X5_colour_identifies_mode_witness :
  let p := Timeline.mkProps [] 100 None (Some Timeline.record_seek) in
  let s := Timeline.mkSegment (Timeline.VString "VISUAL_MONTAGE") 10 20 in
  Timeline.background (Timeline.segment_box 100 0 s) = "#ef4444"%string
  <-> Timeline.mode s = Timeline.VString "VISUAL_MONTAGE".
Proof.
  cbv zeta.
  apply (X5_colour_identifies_mode
           (Timeline.mkProps [] 100 None (Some Timeline.record_seek)) 0 100 0
           (Timeline.mkSegment (Timeline.VString "VISUAL_MONTAGE") 10 20)
           "#ef4444" "VISUAL_MONTAGE").
  simpl. right. left. reflexivity.
Defined.

(** ** The playhead *)

Lemma run_ticks_app {E} (frames1 frames2 : list (Timeline.Props E)) :
  forall playhead,
    Timeline.run_ticks (frames1 ++ frames2) playhead
    = Timeline.run_ticks frames2 (Timeline.run_ticks frames1 playhead).
Proof.
  induction frames1 as [| f rest IH]; intros playhead; simpl;
    [reflexivity | apply IH].
Qed.

(** The playhead and the segments share one coordinate system: with a
    video element attached and duration > 0, the left offset of a box
    starting at the current media time is the playhead position of the
    next tick clamped into [0, 100], and is that position itself while the
    media time is within [0, duration]. *)
Theorem X6_playhead_on_segment_scale {E} (p : Timeline.Props E)
    (playhead : Q) (v : Timeline.Video) :
  Timeline.attached (Timeline.videoRef p) = Some v ->
  0 < Timeline.duration p ->
  let marker :=
    Timeline.playhead_left (Timeline.render p (Timeline.tick p playhead)) in
  Timeline.pct (Timeline.duration p) (Timeline.currentTime v)
  = Qmax 0 (Qmin 100 marker) /\
  (0 <= Timeline.currentTime v <= Timeline.duration p ->
   marker == Timeline.pct (Timeline.duration p) (Timeline.currentTime v)).
Proof.
  intros Hv Hd marker. unfold marker. simpl.
  rewrite (tick_attached p playhead v Hv Hd), (pct_positive _ _ Hd).
  split; [reflexivity |].
  intros Ht. symmetry. apply clamp_inside.
  pose proof (ratio_range _ _ Hd Ht). lra.
Qed.

Lemma X6_playhead_on_segment_scale_witness :
  let p := Timeline.mkProps [] 120
             (Some (Timeline.mkRef (Some (Timeline.mkVideo 30))))
             (Some Timeline.record_seek) in
  Timeline.playhead_left (Timeline.render p (Timeline.tick p 0))
  == Timeline.pct 120 30.
Proof.
  cbv zeta.
  assert (Hd : 0 < 120) by reflexivity.
  pose proof (X6_playhead_on_segment_scale
                (Timeline.mkProps [] 120
                   (Some (Timeline.mkRef (Some (Timeline.mkVideo 30))))
                   (Some Timeline.record_seek)) 0 (Timeline.mkVideo 30)
                eq_refl Hd) as H.
  cbv zeta in H. apply (proj2 H). simpl. split; discriminate.
Defined.

(** The playhead has no memory: after any run of ticks that ends with a
    tick on an attached video with duration > 0, the playhead is
    [currentTime / duration] of that last tick, whatever the earlier frames
    published or left unpublished (duration unknown, no video yet). *)
Theorem X7_last_publishing_tick_wins {E}
    (frames : list (Timeline.Props E)) (p : Timeline.Props E)
    (playhead : Q) (v : Timeline.Video) :
  Timeline.attached (Timeline.videoRef p) = Some v ->
  0 < Timeline.duration p ->
  Timeline.run_ticks (frames ++ [p]) playhead
  = Timeline.currentTime v / Timeline.duration p.
Proof.
  intros Hv Hd. rewrite run_ticks_app. simpl.
  now apply tick_attached.
Qed.

Lemma X7_last_publishing_tick_wins_witness :
  let video := Some (Timeline.mkRef (Some (Timeline.mkVideo 30))) in
  let unknown := Timeline.mkProps [] 0 video (Some Timeline.record_seek) in
  let known := Timeline.mkProps [] 120 video (Some Timeline.record_seek) in
  Timeline.run_ticks ([unknown; unknown] ++ [known]) Timeline.initial_playhead
  = 30 / 120.
Proof.
  cbv zeta.
  apply (X7_last_publishing_tick_wins
           [Timeline.mkProps [] 0
              (Some (Timeline.mkRef (Some (Timeline.mkVideo 30))))
              (Some Timeline.record_seek);
            Timeline.mkProps [] 0
              (Some (Timeline.mkRef (Some (Timeline.mkVideo 30))))
              (Some Timeline.record_seek)]
           (Timeline.mkProps [] 120
              (Some (Timeline.mkRef (Some (Timeline.mkVideo 30))))
              (Some Timeline.record_seek))
           Timeline.initial_playhead (Timeline.mkVideo 30) eq_refl).
  reflexivity.
Defined.

Lemma tick_in_unit {E} (f : Timeline.Props E) (playhead : Q) :
  frame_in_range f = true -> 0 <= playhead <= 1 ->
  0 <= Timeline.tick f playhead <= 1.
Proof.
  intros Hf Hp. unfold frame_in_range in Hf.
  destruct (Timeline.attached (Timeline.videoRef f)) as [v |] eqn:Hv.
  - destruct (Qlt_le_dec 0 (Timeline.duration f)) as [Hd | Hd].
    + rewrite (tick_attached f playhead v Hv Hd).
      apply andb_true_iff in Hf as [H0 H1].
      apply Qle_bool_iff in H0, H1.
      apply ratio_range; [exact Hd | split; assumption].
    + rewrite (tick_silent f playhead) by (right; exact Hd). exact Hp.
  - rewrite (tick_silent f playhead) by (left; exact Hv). exact Hp.
Qed.

(** The playhead stays on the track as long as the media time does: if on
    every frame of a run the media time is within [0, duration], the
    playhead is within [0, 1] after the run, whichever frames published. *)
Theorem X8_playhead_stays_in_unit {E} (frames : list (Timeline.Props E)) :
  Forall (fun f => frame_in_range f = true) frames ->
  0 <= Timeline.run_ticks frames Timeline.initial_playhead <= 1.
Proof.
  intros H.
  assert (Hgen : forall playhead, 0 <= playhead <= 1 ->
                   0 <= Timeline.run_ticks frames playhead <= 1).
  { induction H as [| f rest Hf _ IH]; intros playhead Hp; simpl.
    - exact Hp.
    - apply IH. now apply tick_in_unit. }
  apply Hgen. unfold Timeline.initial_playhead. lra.
Qed.

Lemma X8_playhead_stays_in_unit_witness :
  let frame d t := Timeline.mkProps [] d
                     (Some (Timeline.mkRef (Some (Timeline.mkVideo t))))
                     (Some Timeline.record_seek) in
  0 <= Timeline.run_ticks [frame 0 0; frame 120 30; frame 120 120]
         Timeline.initial_playhead <= 1.
Proof.
  cbv zeta.
  apply (X8_playhead_stays_in_unit
           [Timeline.mkProps [] 0
              (Some (Timeline.mkRef (Some (Timeline.mkVideo 0))))
              (Some Timeline.record_seek);
            Timeline.mkProps [] 120
              (Some (Timeline.mkRef (Some (Timeline.mkVideo 30))))
              (Some Timeline.record_seek);
            Timeline.mkProps [] 120
              (Some (Timeline.mkRef (Some (Timeline.mkVideo 120))))
              (Some Timeline.record_seek)]).
  repeat (constructor; [reflexivity |]). constructor.
Defined.

(** ** Clicks on the track *)

(** A click inside the measured track, with a duration that is not
    negative, requests a time within [0, duration]: the left edge requests
    0, the right edge the whole duration. *)
Theorem X9_click_inside_track {E} (p : Timeline.Props E)
    (rect : Timeline.Rect) (seek : number -> list E) (clientX : Q) :
  Timeline.onSeek p = Some seek ->
  0 < Timeline.rect_width rect ->
  0 <= Timeline.duration p ->
  Timeline.rect_left rect <= clientX
    <= Timeline.rect_left rect + Timeline.rect_width rect ->
  exists q,
    Timeline.handleClick p (Timeline.mkRef (Some rect)) clientX
    = seek (Finite q) /\
    0 <= q <= Timeline.duration p /\
    (clientX == Timeline.rect_left rect -> q == 0) /\
    (clientX == Timeline.rect_left rect + Timeline.rect_width rect ->
     q == Timeline.duration p).
Proof.
  intros Hseek Hw Hd [Hl Hr].
  assert (Hw0 : ~ Timeline.rect_width rect == 0) by lra.
  eexists. split; [now apply handleClick_calls_onSeek |].
  set (x := clientX - Timeline.rect_left rect).
  assert (Hx : 0 <= x <= Timeline.rect_width rect) by (unfold x; split; lra).
  pose proof (ratio_range _ x Hw Hx) as [Hf0 Hf1].
  split; [split |]; [| | split].
  - apply Qmult_le_0_compat; assumption.
  - rewrite <- (Qmult_1_l (Timeline.duration p)) at 2.
    apply Qmult_le_compat_r; assumption.
  - intros Heq. unfold x. rewrite Heq. field. exact Hw0.
  - intros Heq. unfold x. rewrite Heq. field. exact Hw0.
Qed.

Lemma X9_click_inside_track_witness :
  let p := Timeline.mkProps [] 200 None (Some Timeline.record_seek) in
  exists q,
    Timeline.handleClick p (Timeline.mkRef (Some (Timeline.mkRect 40 320))) 360
    = [Finite q] /\
    0 <= q <= 200 /\
    (360 == 40 -> q == 0) /\ (360 == 40 + 320 -> q == 200).
Proof.
  cbv zeta.
  assert (Hw : 0 < 320) by reflexivity.
  assert (Hd : 0 <= 200) by discriminate.
  assert (Hx : 40 <= 360 <= 40 + 320) by (split; discriminate).
  exact (X9_click_inside_track
           (Timeline.mkProps [] 200 None (Some Timeline.record_seek))
           (Timeline.mkRect 40 320) Timeline.record_seek 360
           eq_refl Hw Hd Hx).
Defined.


(** On a track measured with zero width the handler does not return early:
    the quotient of the division by the width is not a finite number, the
    seek handler is called with it, and on an attached video element the
    setter of the current time throws a [TypeError]; nothing is assigned. *)
Theorem X11_zero_width_setter_throws
    (videoRef : Timeline.Ref Timeline.Video) (v : Timeline.Video)
    (st : App.State) (rect : Timeline.Rect) (clientX : Q) :
  Timeline.current videoRef = Some v ->
  Timeline.rect_width rect == 0 ->
  Timeline.handleClick (App.timeline_props videoRef st)
    (Timeline.mkRef (Some rect)) clientX
  = App.handleSeek videoRef NonFinite /\
  App.handleSeek videoRef NonFinite = [App.SetterTypeError].
Proof.
  intros Hv Hw. split.
  - unfold Timeline.handleClick. simpl.
    now rewrite (div_zero _ _ Hw).
  - unfold App.handleSeek. now rewrite Hv.
Qed.

Lemma X11_zero_width_setter_throws_witness :
  let videoRef := Timeline.mkRef (Some (Timeline.mkVideo 12)) in
  let st := App.mkState None None "" [] 200 false None None in
  Timeline.handleClick (App.timeline_props videoRef st)
    (Timeline.mkRef (Some (Timeline.mkRect 40 0))) 120
  = App.handleSeek videoRef NonFinite /\
  App.handleSeek videoRef NonFinite = [App.SetterTypeError].
Proof.
  cbv zeta.
  apply (X11_zero_width_setter_throws
           (Timeline.mkRef (Some (Timeline.mkVideo 12))) (Timeline.mkVideo 12));
    reflexivity.
Defined.

(** Click, seek and tick compose: on a track of nonzero width with
    duration > 0, once the video element is at the time a click assigned,
    the next tick puts the playhead marker at the pointer's fraction of the
    track, [(x / W) * 100] percent. *)
Theorem X12_playhead_lands_under_pointer
    (videoRef : Timeline.Ref Timeline.Video) (v : Timeline.Video)
    (st : App.State) (rect : Timeline.Rect) (clientX playhead : Q) :
  Timeline.current videoRef = Some v ->
  ~ Timeline.rect_width rect == 0 ->
  0 < App.duration st ->
  exists t,
    Timeline.handleClick (App.timeline_props videoRef st)
      (Timeline.mkRef (Some rect)) clientX
    = [App.AssignCurrentTime (Finite t)] /\
    let seeked :=
      App.timeline_props (Timeline.mkRef (Some (Timeline.mkVideo t))) st in
    Timeline.playhead_left
      (Timeline.render seeked (Timeline.tick seeked playhead))
    == (clientX - Timeline.rect_left rect) / Timeline.rect_width rect * 100.
Proof.
  intros Hv Hw Hd. eexists. split.
  - rewrite (handleClick_calls_onSeek (App.timeline_props videoRef st)
               rect (App.handleSeek videoRef) clientX eq_refl Hw).
    unfold App.handleSeek. rewrite Hv. reflexivity.
  - cbv zeta. simpl.
    rewrite (tick_attached
               (App.timeline_props (Timeline.mkRef (Some (Timeline.mkVideo _))) st)
               playhead (Timeline.mkVideo _) eq_refl Hd).
    simpl. field. split; [exact Hw | lra].
Qed.

Lemma X12_playhead_lands_under_pointer_witness :
  let st := App.mkState None None "" [] 200 false None None in
  exists t,
    Timeline.handleClick
      (App.timeline_props (Timeline.mkRef (Some (Timeline.mkVideo 12))) st)
      (Timeline.mkRef (Some (Timeline.mkRect 40 320))) 120
    = [App.AssignCurrentTime (Finite t)] /\
    let seeked :=
      App.timeline_props (Timeline.mkRef (Some (Timeline.mkVideo t))) st in
    Timeline.playhead_left (Timeline.render seeked (Timeline.tick seeked 0))
    == (120 - 40) / 320 * 100.
Proof.
  cbv zeta.
  assert (Hw : ~ 320 == 0) by (intros C; discriminate C).
  assert (Hd : 0 < 200) by reflexivity.
  exact (X12_playhead_lands_under_pointer
           (Timeline.mkRef (Some (Timeline.mkVideo 12))) (Timeline.mkVideo 12)
           (App.mkState None None "" [] 200 false None None)
           (Timeline.mkRect 40 320) 120 0 eq_refl Hw Hd).
Defined.

(** ** Requests *)

Lemma ui_step_error (ev : App.UiEvent) (st : App.State) :
  App.error (App.exec (App.ui_step ev) st) = App.error st.
Proof.
  destruct ev as [[f |] url | path | [|] percent | d]; reflexivity.
Qed.

Lemma ui_run_error (evs : list App.UiEvent) :
  forall st, App.error (App.ui_run evs st) = App.error st.
Proof.
  induction evs as [| ev rest IH]; intros st; simpl; [reflexivity |].
  rewrite IH. apply ui_step_error.
Qed.

Lemma analyze_resume_error (o : App.FetchOutcome) (st : App.State) :
  App.error st = None ->
  (App.error (App.exec (App.handleAnalyze_resume o) st) = None
   <-> App.analyze_failed o = false).
Proof.
  intros He.
  destruct o as [e | status txt | status e | e | [| segs dur]]; simpl;
    try (split; intros H; discriminate H).
  split; [reflexivity | intros _; exact He].
Qed.

Lemma upload_resume_error (o : App.XhrOutcome) (st : App.State) :
  App.error st = None ->
  (App.error (App.exec (App.handleUpload_resume o) st) = None
   <-> App.upload_failed o = false).
Proof.
  intros He. destruct o as [status statusText body |].
  - run_handler.
    destruct (Z.leb 200 status && Z.ltb status 300).
    + destruct body as [| [| segs dur]]; simpl;
        try (split; intros H; discriminate H).
      split; [reflexivity | intros _; exact He].
    + simpl. split; intros H; discriminate H.
  - simpl. split; intros H; discriminate H.
Qed.

(** [handleAnalyze] sends a request exactly when the server path is not
    empty, and the request carries that path.  With an empty path it stops
    after clearing the previous result: no request, the hint about the
    path as error, and the loading flag as it was. *)
Theorem X13_analyze_needs_path (st : App.State) :
  (App.serverPath st = ""%string ->
     fst (App.handleAnalyze_begin st) = None /\
     App.error (App.exec App.handleAnalyze_begin st)
     = Some (App.Message
         "Please provide a server-side video path (e.g. videos/Mihir_clip.MOV)") /\
     App.loading (App.exec App.handleAnalyze_begin st) = App.loading st /\
     App.segments (App.exec App.handleAnalyze_begin st) = []) /\
  (App.serverPath st <> ""%string ->
     fst (App.handleAnalyze_begin st)
     = Some (App.PostAnalyze (App.serverPath st)) /\
     App.error (App.exec App.handleAnalyze_begin st) = None /\
     App.loading (App.exec App.handleAnalyze_begin st) = true).
Proof.
  run_handler. split; intros H.
  - rewrite H. simpl. repeat split.
  - destruct (String.eqb_spec (App.serverPath st) "") as [E | _];
      [contradiction | simpl; repeat split].
Qed.

Lemma X13_analyze_needs_path_witness :
  let blank := App.mkState None None "" [] 100 false None None in
  fst (App.handleAnalyze_begin blank) = None /\
  fst (App.handleAnalyze_begin App.initial)
  = Some (App.PostAnalyze "videos/Mihir_clip.MOV").
Proof.
  cbv zeta. split.
  - apply (proj1 (X13_analyze_needs_path
                    (App.mkState None None "" [] 100 false None None))).
    reflexivity.
  - apply (proj2 (X13_analyze_needs_path App.initial)). discriminate.
Defined.

(** [handleUpload] sends a request exactly when a local file is selected,
    and the request carries that file, with the progress starting at 0.
    Without a file it stops after clearing the previous result: no
    request, an error message, and no progress shown that was not shown
    before. *)
Theorem X14_upload_needs_file (st : App.State) :
  (App.localFile st = None ->
     fst (App.handleUpload_begin st) = None /\
     App.error (App.exec App.handleUpload_begin st)
     = Some (App.Message "No local file selected to upload") /\
     App.loading (App.exec App.handleUpload_begin st) = App.loading st /\
     App.uploadProgress (App.exec App.handleUpload_begin st)
     = App.uploadProgress st /\
     App.segments (App.exec App.handleUpload_begin st) = []) /\
  (forall f, App.localFile st = Some f ->
     fst (App.handleUpload_begin st) = Some (App.PostUpload f) /\
     App.error (App.exec App.handleUpload_begin st) = None /\
     App.loading (App.exec App.handleUpload_begin st) = true /\
     App.uploadProgress (App.exec App.handleUpload_begin st) = Some 0%Z).
Proof.
  run_handler. split.
  - intros H. rewrite H. simpl. repeat split.
  - intros f H. rewrite H. simpl. repeat split.
Qed.

Lemma X14_upload_needs_file_witness :
  let chosen := App.mkState (Some "clip.mov"%string) (Some "blob:1"%string)
                  "" [] 100 false None None in
  fst (App.handleUpload_begin App.initial) = None /\
  fst (App.handleUpload_begin chosen)
  = Some (App.PostUpload "clip.mov"%string).
Proof.
  cbv zeta. split.
  - apply (proj1 (X14_upload_needs_file App.initial)). reflexivity.
  - apply (proj2 (X14_upload_needs_file
                    (App.mkState (Some "clip.mov"%string)
                       (Some "blob:1"%string) "" [] 100 false None None))
             "clip.mov"%string).
    reflexivity.
Defined.

(** Once a request has been sent, an error is shown after it settles
    exactly when it failed: every failure of an analysis or an upload sets
    an error, a success leaves the error cleared, and nothing the user does
    to the inputs meanwhile changes that. *)
Theorem X15_error_iff_request_failed (st : App.State)
    (evs : list App.UiEvent) :
  (forall o, App.serverPath st <> ""%string ->
     (App.error (App.exec (App.handleAnalyze_resume o)
                   (App.ui_run evs (App.exec App.handleAnalyze_begin st)))
      = None
      <-> App.analyze_failed o = false)) /\
  (forall o, App.localFile st <> None ->
     (App.error (App.exec (App.handleUpload_resume o)
                   (App.ui_run evs (App.exec App.handleUpload_begin st)))
      = None
      <-> App.upload_failed o = false)).
Proof.
  split; intros o Hsent.
  - apply analyze_resume_error. rewrite ui_run_error.
    run_handler.
    destruct (String.eqb_spec (App.serverPath st) "") as [E | _];
      [contradiction | reflexivity].
  - apply upload_resume_error. rewrite ui_run_error.
    run_handler.
    destruct (App.localFile st) as [f |]; [reflexivity | contradiction].
Qed.

Lemma X15_error_iff_request_failed_witness :
  let chosen := App.mkState (Some "clip.mov"%string) (Some "blob:1"%string)
                  "videos/a.mp4" [] 100 false
                  (Some (App.Message "stale")) None in
  let evs := [App.ServerPathEdited "videos/b.mp4"] in
  (App.error (App.exec (App.handleAnalyze_resume
                          (App.Json (App.PData None (Some 60))))
                (App.ui_run evs (App.exec App.handleAnalyze_begin chosen)))
   = None
   <-> App.analyze_failed (App.Json (App.PData None (Some 60))) = false) /\
  (App.error (App.exec (App.handleUpload_resume (App.XhrDone 500 "" App.SyntaxError))
                (App.ui_run evs (App.exec App.handleUpload_begin chosen)))
   = None
   <-> App.upload_failed (App.XhrDone 500 "" App.SyntaxError) = false).
Proof.
  cbv zeta.
  pose proof (X15_error_iff_request_failed
                (App.mkState (Some "clip.mov"%string) (Some "blob:1"%string)
                   "videos/a.mp4" [] 100 false
                   (Some (App.Message "stale")) None)
                [App.ServerPathEdited "videos/b.mp4"]) as [Ha Hu].
  split.
  - apply Ha. discriminate.
  - apply Hu. discriminate.
Defined.



(** ** What the page shows over time *)

Lemma after_click_keeps (k : Page.Kind)
    (begin : App.Handler (option App.Request)) (w w' : Page.World) :
  (forall st, App.loading st = false ->
     Page.progress_shown st = false ->
     let (req, st') := begin st in
     match req with
     | Some _ =>
         App.loading st' = true /\ Page.no_segments st' = true /\
         Page.no_error st' = true /\
         (Page.progress_shown st' = true -> k = Page.Upload)
     | None =>
         App.loading st' = false /\ Page.no_segments st' = true /\
         Page.progress_shown st' = false
     end) ->
  Page.invariant w = true ->
  Page.after_click k begin w = Some w' ->
  Page.invariant w' = true.
Proof.
  intros Hbegin Hinv Hstep. unfold Page.after_click in Hstep.
  destruct (App.loading (Page.state w)) eqn:Hl; [discriminate |].
  unfold Page.invariant in Hinv. rewrite Hl in Hinv.
  destruct w as [st pend]. simpl in *.
  destruct pend as [k0 |]; [discriminate Hinv |]. simpl in Hinv.
  assert (Hp : Page.progress_shown st = false).
  { destruct (Page.progress_shown st); [discriminate Hinv | reflexivity]. }
  specialize (Hbegin st Hl Hp).
  destruct (begin st) as [req st']. inversion Hstep; subst; clear Hstep.
  unfold Page.invariant. simpl.
  destruct req as [r |].
  - destruct Hbegin as (H1 & H2 & H3 & H4). rewrite H1, H2, H3. simpl.
    destruct (Page.progress_shown st') eqn:P; [| reflexivity].
    now rewrite (H4 eq_refl).
  - destruct Hbegin as (H1 & H2 & H3). rewrite H1, H2, H3. simpl.
    now rewrite orb_true_r.
Qed.

Lemma analyze_begin_shape (st : App.State) :
  App.loading st = false ->
  Page.progress_shown st = false ->
  let (req, st') := App.handleAnalyze_begin st in
  match req with
  | Some _ =>
      App.loading st' = true /\ Page.no_segments st' = true /\
      Page.no_error st' = true /\
      (Page.progress_shown st' = true -> Page.Analyze = Page.Upload)
  | None =>
      App.loading st' = false /\ Page.no_segments st' = true /\
      Page.progress_shown st' = false
  end.
Proof.
  intros Hl Hp. run_handler.
  destruct (String.eqb (App.serverPath st) ""); simpl.
  - repeat split; assumption.
  - repeat split. unfold Page.progress_shown in *. simpl.
    intros H. rewrite Hp in H. discriminate H.
Qed.

Lemma upload_begin_shape (st : App.State) :
  App.loading st = false ->
  Page.progress_shown st = false ->
  let (req, st') := App.handleUpload_begin st in
  match req with
  | Some _ =>
      App.loading st' = true /\ Page.no_segments st' = true /\
      Page.no_error st' = true /\
      (Page.progress_shown st' = true -> Page.Upload = Page.Upload)
  | None =>
      App.loading st' = false /\ Page.no_segments st' = true /\
      Page.progress_shown st' = false
  end.
Proof.
  intros Hl Hp. run_handler.
  destruct (App.localFile st); simpl; repeat split; assumption.
Qed.

Lemma settle_keeps (st' : App.State) :
  App.loading st' = false ->
  Page.progress_shown st' = false ->
  (Page.no_error st' = true \/ Page.no_segments st' = true) ->
  Page.invariant {| Page.state := st'; Page.pending := None |} = true.
Proof.
  intros Hl Hp Hshow. unfold Page.invariant. simpl.
  rewrite Hl, Hp. simpl.
  destruct Hshow as [H | H]; rewrite H; [reflexivity | apply orb_true_r].
Qed.

Lemma step_keeps_invariant (ev : Page.Event) (w w' : Page.World) :
  Page.invariant w = true ->
  Page.step ev w = Some w' ->
  Page.invariant w' = true.
Proof.
  intros Hinv Hstep. destruct ev as [| o | | o | ev]; simpl in Hstep.
  - eapply after_click_keeps; [apply analyze_begin_shape | eassumption ..].
  - destruct w as [st pend]. simpl in Hstep.
    destruct pend as [[|] |]; try discriminate Hstep.
    inversion Hstep; subst; clear Hstep.
    unfold Page.invariant in Hinv. simpl in Hinv.
    apply andb_true_iff in Hinv as [Hinv _].
    apply andb_true_iff in Hinv as [Hinv Hprog].
    apply andb_true_iff in Hinv as [_ Hshown].
    apply andb_true_iff in Hshown as [Hsegs Herr].
    assert (Hp : Page.progress_shown st = false).
    { destruct (Page.progress_shown st); [discriminate Hprog | reflexivity]. }
    apply settle_keeps.
    + destruct o as [e | status txt | status e | e | [| segs dur]];
        reflexivity.
    + destruct o as [e | status txt | status e | e | [| segs dur]];
        exact Hp.
    + destruct o as [e | status txt | status e | e | [| segs dur]];
        try (right; exact Hsegs).
      left. exact Herr.
  - eapply after_click_keeps; [apply upload_begin_shape | eassumption ..].
  - destruct w as [st pend]. simpl in Hstep.
    destruct pend as [[|] |]; try discriminate Hstep.
    inversion Hstep; subst; clear Hstep.
    unfold Page.invariant in Hinv. simpl in Hinv.
    apply andb_true_iff in Hinv as [Hinv _].
    apply andb_true_iff in Hinv as [Hinv _].
    apply andb_true_iff in Hinv as [_ Hshown].
    apply andb_true_iff in Hshown as [Hsegs Herr].
    apply settle_keeps.
    + destruct o as [status statusText body |]; [| reflexivity].
      run_handler.
      destruct (Z.leb 200 status && Z.ltb status 300);
        [destruct body as [| [| segs dur]] |]; reflexivity.
    + destruct o as [status statusText body |]; [| reflexivity].
      run_handler.
      destruct (Z.leb 200 status && Z.ltb status 300);
        [destruct body as [| [| segs dur]] |]; reflexivity.
    + destruct o as [status statusText body |]; [| right; exact Hsegs].
      run_handler.
      destruct (Z.leb 200 status && Z.ltb status 300);
        [destruct body as [| [| segs dur]] |];
        try (right; exact Hsegs).
      left. exact Herr.
  - destruct w as [st pend].
    destruct ev as [[f |] url | path | lc percent | d]; simpl in Hstep;
      try (inversion Hstep; subst; clear Hstep; exact Hinv).
    destruct pend as [[|] |]; try discriminate Hstep.
    inversion Hstep; subst; clear Hstep.
    destruct lc; [| exact Hinv].
    destruct st as [lf lu sp segs dur ld err up].
    unfold Page.invariant, Page.no_segments, Page.no_error,
      Page.progress_shown in *.
    simpl in *.
    destruct ld, segs, err, up; simpl in *;
      try discriminate Hinv; reflexivity.
Qed.

Lemma run_keeps_invariant (evs : list Page.Event) :
  forall w w',
    Page.invariant w = true ->
    Page.run evs w = Some w' ->
    Page.invariant w' = true.
Proof.
  induction evs as [| ev rest IH]; intros w w' Hinv Hrun; simpl in Hrun.
  - inversion Hrun; subst. exact Hinv.
  - destruct (Page.step ev w) as [w1 |] eqn:Hstep; [| discriminate Hrun].
    apply (IH w1 w'); [| exact Hrun].
    now apply (step_keeps_invariant ev w).
Qed.

Lemma reachable_invariant (evs : list Page.Event) (w : Page.World) :
  Page.run evs Page.initial = Some w -> Page.invariant w = true.
Proof.
  apply run_keeps_invariant. reflexivity.
Qed.

(** Runs a concrete list of events and names the page it ends in. *)
Ltac run_page Hrun :=
  match goal with
  | |- exists w, ?r = Some w /\ _ =>
      let v := eval vm_compute in r in
      match v with
      | Some ?w0 =>
          assert (Hrun : r = Some w0) by (vm_compute; reflexivity);
          exists w0
      end
  end.

(** On every page reached from the initial one, the loading flag is set
    exactly while a request is in flight, and while it is set neither
    segments nor an error are shown: the buttons, disabled by the flag,
    can never start a second request beside a pending one. *)
Theorem X17_loading_while_request_pending (evs : list Page.Event)
    (w : Page.World) :
  Page.run evs Page.initial = Some w ->
  (App.loading (Page.state w) = true <-> Page.pending w <> None) /\
  (App.loading (Page.state w) = true ->
   App.segments (Page.state w) = [] /\ App.error (Page.state w) = None).
Proof.
  intros Hrun. pose proof (reachable_invariant evs w Hrun) as Hinv.
  destruct w as [st pend]. destruct st as [lf lu sp segs dur ld err up].
  unfold Page.invariant, Page.no_segments, Page.no_error,
    Page.progress_shown, Page.busy in Hinv.
  simpl in *.
  destruct ld, pend as [k |], segs, err; simpl in Hinv;
    try discriminate Hinv;
    (split; [split |]); try congruence; try discriminate; auto.
Qed.

Lemma X17_loading_while_request_pending_witness :
  exists w,
    Page.run [Page.Input (App.ServerPathEdited "videos/b.mp4");
              Page.ClickAnalyze;
              Page.Input (App.LoadedMetadata 300)] Page.initial = Some w /\
    Page.pending w = Some Page.Analyze /\
    App.segments (Page.state w) = [] /\ App.error (Page.state w) = None.
Proof.
  cbv zeta. run_page Hrun.
  split; [exact Hrun |]. split; [reflexivity |].
  apply (X17_loading_while_request_pending _ _ Hrun).
  reflexivity.
Defined.

(** On every page reached from the initial one, an error message and
    segments are never shown together: whenever an error is set the
    segment list is empty. *)
Theorem X18_error_excludes_segments (evs : list Page.Event) (w : Page.World) :
  Page.run evs Page.initial = Some w ->
  App.error (Page.state w) <> None ->
  App.segments (Page.state w) = [].
Proof.
  intros Hrun Herr. pose proof (reachable_invariant evs w Hrun) as Hinv.
  unfold Page.invariant in Hinv.
  apply andb_true_iff in Hinv as [_ Hshow].
  unfold Page.no_error, Page.no_segments in Hshow.
  destruct (App.error (Page.state w)); [| congruence].
  destruct (App.segments (Page.state w)); [reflexivity | discriminate Hshow].
Qed.

Lemma X18_error_excludes_segments_witness :
  let seg := Timeline.mkSegment (Timeline.VString "DIALOGUE_SCENE") 10 20 in
  exists w,
    Page.run [Page.ClickAnalyze;
              Page.AnalyzeSettled (App.Json (App.PData (Some [seg]) (Some 60)));
              Page.ClickAnalyze;
              Page.AnalyzeSettled (App.NotOk 500 "boom")] Page.initial
    = Some w /\
    App.error (Page.state w) = Some (App.ServerError 500 "boom") /\
    App.segments (Page.state w) = [].
Proof.
  cbv zeta. run_page Hrun.
  split; [exact Hrun |]. split; [reflexivity |].
  apply (X18_error_excludes_segments _ _ Hrun).
  discriminate.
Defined.

(** On every page reached from the initial one, the upload progress line
    is shown only while an upload is in flight: every way an upload ends
    removes it, and an analysis never shows it. *)
Theorem X19_progress_only_while_uploading (evs : list Page.Event)
    (w : Page.World) :
  Page.run evs Page.initial = Some w ->
  App.uploadProgress (Page.state w) <> None ->
  Page.pending w = Some Page.Upload /\ App.loading (Page.state w) = true.
Proof.
  intros Hrun Hup. pose proof (reachable_invariant evs w Hrun) as Hinv.
  destruct w as [st pend]. destruct st as [lf lu sp segs dur ld err up].
  unfold Page.invariant, Page.no_segments, Page.no_error,
    Page.progress_shown, Page.busy, Page.uploading in Hinv.
  simpl in *.
  destruct up as [n |]; [| congruence].
  destruct ld, pend as [[|] |], segs, err; simpl in Hinv;
    try discriminate Hinv; split; reflexivity.
Qed.

Lemma X19_progress_only_while_uploading_witness :
  exists w,
    Page.run [Page.Input (App.LocalFileChosen (Some "clip.mov"%string) "blob:1");
              Page.ClickUpload;
              Page.Input (App.UploadProgress true 40)] Page.initial = Some w /\
    App.uploadProgress (Page.state w) = Some 40%Z /\
    Page.pending w = Some Page.Upload /\ App.loading (Page.state w) = true.
Proof.
  cbv zeta. run_page Hrun.
  split; [exact Hrun |]. split; [reflexivity |].
  apply (X19_progress_only_while_uploading _ _ Hrun).
  discriminate.
Defined.

(** ** The segment list and the player *)

Lemma map_indexed_In {A B} (f : nat -> A -> B) (l : list A) (b : B) :
  forall i, In b (Timeline.map_indexed f i l) ->
            exists k a, In a l /\ b = f k a.
Proof.
  induction l as [| a rest IH]; intros i Hin; simpl in Hin; [contradiction |].
  destruct Hin as [<- | Hin].
  - exists i, a. split; [now left | reflexivity].
  - destruct (IH _ Hin) as (k & a' & Ha & Hb).
    exists k, a'. split; [now right | exact Hb].
Qed.

(** The list has one row per segment, in the order of the segments, and a
    click on the row at position [k] seeks to the start of the segment at
    position [k]: with a video element attached it makes exactly one
    assignment, of that start time, not checked against the duration. *)
Theorem X20_row_click_seeks_to_start
    (videoRef : Timeline.Ref Timeline.Video) (v : Timeline.Video)
    (st : App.State) (k : nat) (s : Timeline.Segment) :
  Timeline.current videoRef = Some v ->
  nth_error (App.segments st) k = Some s ->
  exists r,
    nth_error (SegmentList.rows (Page.segment_list videoRef st)) k = Some r /\
    SegmentList.row_key r = k /\
    SegmentList.seg_mode r = Timeline.mode s /\
    SegmentList.row_click r
    = [App.AssignCurrentTime (Finite (Timeline.start s))].
Proof.
  intros Hv Hs. eexists. split.
  - unfold Page.segment_list. simpl.
    rewrite map_indexed_nth_error, Hs. reflexivity.
  - simpl. unfold App.handleSeek. rewrite Hv. repeat split.
Qed.

Lemma X20_row_click_seeks_to_start_witness :
  let s1 := Timeline.mkSegment (Timeline.VString "DIALOGUE_SCENE") 10 20 in
  let s2 := Timeline.mkSegment (Timeline.VString "VISUAL_MONTAGE") 20 45 in
  let st := App.mkState None (Some "blob:1"%string) "" [s1; s2] 30 false
              None None in
  exists r,
    nth_error
      (SegmentList.rows
         (Page.segment_list (Timeline.mkRef (Some (Timeline.mkVideo 3))) st)) 1
    = Some r /\
    SegmentList.row_key r = 1%nat /\
    SegmentList.seg_mode r = Timeline.VString "VISUAL_MONTAGE" /\
    SegmentList.row_click r = [App.AssignCurrentTime (Finite 20)].
Proof.
  cbv zeta.
  exact (X20_row_click_seeks_to_start
           (Timeline.mkRef (Some (Timeline.mkVideo 3))) (Timeline.mkVideo 3)
           (App.mkState None (Some "blob:1"%string) ""
              [Timeline.mkSegment (Timeline.VString "DIALOGUE_SCENE") 10 20;
               Timeline.mkSegment (Timeline.VString "VISUAL_MONTAGE") 20 45]
              30 false None None)
           1 (Timeline.mkSegment (Timeline.VString "VISUAL_MONTAGE") 20 45)
           eq_refl eq_refl).
Defined.

(** The note "No segments yet" is shown exactly when the list has no rows,
    and the list always has as many rows as the track has boxes. *)
Theorem X21_empty_note_iff_no_rows
    (videoRef : Timeline.Ref Timeline.Video) (st : App.State) (playhead : Q) :
  (SegmentList.empty_note (Page.segment_list videoRef st) = true
   <-> SegmentList.rows (Page.segment_list videoRef st) = []) /\
  List.length (SegmentList.rows (Page.segment_list videoRef st))
  = List.length
      (Timeline.boxes (Timeline.render (App.timeline_props videoRef st)
                         playhead)).
Proof.
  unfold Page.segment_list. simpl. split.
  - destruct (App.segments st) as [| s rest]; simpl;
      split; intros H; try reflexivity; discriminate H.
  - now rewrite !map_indexed_length.
Qed.

(** A click on a segment's row brings the playhead to that segment's box:
    for a segment that starts within [0, duration], duration > 0, once the
    video element is at the time the click assigned, the next tick puts
    the playhead marker at the left offset of the segment's box. *)
Theorem X22_row_click_aligns_playhead
    (videoRef : Timeline.Ref Timeline.Video) (v : Timeline.Video)
    (st : App.State) (k : nat) (s : Timeline.Segment) (playhead : Q) :
  Timeline.current videoRef = Some v ->
  nth_error (App.segments st) k = Some s ->
  0 < App.duration st ->
  0 <= Timeline.start s <= App.duration st ->
  exists r t b,
    nth_error (SegmentList.rows (Page.segment_list videoRef st)) k = Some r /\
    SegmentList.row_click r = [App.AssignCurrentTime (Finite t)] /\
    nth_error
      (Timeline.boxes (Timeline.render (App.timeline_props videoRef st)
                         playhead)) k = Some b /\
    let seeked :=
      App.timeline_props (Timeline.mkRef (Some (Timeline.mkVideo t))) st in
    Timeline.playhead_left
      (Timeline.render seeked (Timeline.tick seeked playhead))
    == Timeline.left b.
Proof.
  intros Hv Hs Hd Hrange.
  exists (SegmentList.row (Some (App.handleSeek videoRef)) k s),
         (Timeline.start s),
         (Timeline.segment_box (App.duration st) k s).
  split; [| split; [| split]].
  - unfold Page.segment_list. simpl.
    rewrite map_indexed_nth_error, Hs. reflexivity.
  - simpl. unfold App.handleSeek. now rewrite Hv.
  - simpl. rewrite map_indexed_nth_error, Hs. reflexivity.
  - cbv zeta. simpl.
    rewrite (tick_attached
               (App.timeline_props
                  (Timeline.mkRef (Some (Timeline.mkVideo (Timeline.start s))))
                  st)
               playhead (Timeline.mkVideo (Timeline.start s)) eq_refl Hd).
    simpl. symmetry. now apply pct_inside.
Qed.

Lemma X22_row_click_aligns_playhead_witness :
  let s1 := Timeline.mkSegment (Timeline.VString "DIALOGUE_SCENE") 10 20 in
  let s2 := Timeline.mkSegment (Timeline.VString "VISUAL_MONTAGE") 20 45 in
  let st := App.mkState None (Some "blob:1"%string) "" [s1; s2] 80 false
              None None in
  let videoRef := Timeline.mkRef (Some (Timeline.mkVideo 3)) in
  exists r t b,
    nth_error (SegmentList.rows (Page.segment_list videoRef st)) 1 = Some r /\
    SegmentList.row_click r = [App.AssignCurrentTime (Finite t)] /\
    nth_error
      (Timeline.boxes (Timeline.render (App.timeline_props videoRef st) 0)) 1
    = Some b /\
    let seeked :=
      App.timeline_props (Timeline.mkRef (Some (Timeline.mkVideo t))) st in
    Timeline.playhead_left (Timeline.render seeked (Timeline.tick seeked 0))
    == Timeline.left b.
Proof.
  cbv zeta.
  assert (Hd : 0 < 80) by reflexivity.
  assert (Hr : 0 <= 20 <= 80) by (split; discriminate).
  exact (X22_row_click_aligns_playhead
           (Timeline.mkRef (Some (Timeline.mkVideo 3))) (Timeline.mkVideo 3)
           (App.mkState None (Some "blob:1"%string) ""
              [Timeline.mkSegment (Timeline.VString "DIALOGUE_SCENE") 10 20;
               Timeline.mkSegment (Timeline.VString "VISUAL_MONTAGE") 20 45]
              80 false None None)
           1 (Timeline.mkSegment (Timeline.VString "VISUAL_MONTAGE") 20 45) 0
           eq_refl eq_refl Hd Hr).
Defined.

(** Without a source the player renders its placeholder and the ref holds
    no element; then nothing on the page can seek or move the playhead: a
    click on the track and a click on any row assign nothing, and a tick
    leaves the playhead where it is.  This is the page of a user who
    analyses a server path without choosing a local file. *)
Theorem X23_no_source_no_seek (st : App.State) (el : Timeline.Video)
    (containerRef : Timeline.Ref Timeline.Rect) (clientX playhead : Q) :
  App.localURL st = None \/ App.localURL st = Some ""%string ->
  let videoRef := VideoPlayer.ref_after_render (App.localURL st) el in
  VideoPlayer.render (App.localURL st) = VideoPlayer.Placeholder /\
  Timeline.handleClick (App.timeline_props videoRef st) containerRef clientX
  = [] /\
  (forall r, In r (SegmentList.rows (Page.segment_list videoRef st)) ->
             SegmentList.row_click r = []) /\
  Timeline.tick (App.timeline_props videoRef st) playhead = playhead.
Proof.
  intros Hsrc videoRef.
  assert (Hview : VideoPlayer.render (App.localURL st) = VideoPlayer.Placeholder)
    by (destruct Hsrc as [-> | ->]; reflexivity).
  assert (Href : Timeline.current videoRef = None)
    by (unfold videoRef, VideoPlayer.ref_after_render; now rewrite Hview).
  split; [exact Hview |]. split; [| split].
  - unfold Timeline.handleClick. simpl.
    destruct (Timeline.current containerRef); [| reflexivity].
    unfold App.handleSeek. now rewrite Href.
  - intros r Hin. unfold Page.segment_list in Hin. simpl in Hin.
    apply map_indexed_In in Hin as (k & s & _ & ->).
    simpl. unfold App.handleSeek. now rewrite Href.
  - apply tick_silent. left. simpl. exact Href.
Qed.

Lemma X23_no_source_no_seek_witness :
  let s1 := Timeline.mkSegment (Timeline.VString "DIALOGUE_SCENE") 10 20 in
  let st := App.mkState None None "videos/a.mp4" [s1] 80 false None None in
  let videoRef := VideoPlayer.ref_after_render None (Timeline.mkVideo 3) in
  Timeline.handleClick (App.timeline_props videoRef st)
    (Timeline.mkRef (Some (Timeline.mkRect 40 320))) 120 = [] /\
  Timeline.tick (App.timeline_props videoRef st) (1 # 4) = 1 # 4.
Proof.
  cbv zeta.
  pose proof (X23_no_source_no_seek
                (App.mkState None None "videos/a.mp4"
                   [Timeline.mkSegment (Timeline.VString "DIALOGUE_SCENE") 10 20]
                   80 false None None)
                (Timeline.mkVideo 3)
                (Timeline.mkRef (Some (Timeline.mkRect 40 320))) 120 (1 # 4)
                (or_introl eq_refl)) as H.
  cbv zeta in H. destruct H as (_ & Hclick & _ & Htick).
  split; [exact Hclick | exact Htick].
Defined.
